(** * SvelteKit_Template_Auth: the credential store, the session store and
      the login and signup form actions

    A shallow embedding of
      - [src/lib/types.ts]      (the response and record types),
      - [src/lib/db/database.ts] (class [AuthService]),
      - [src/routes/(marketing)/login/+page.server.ts] (the form actions),
    followed by the properties of the session lifecycle.

    Conventions.
      - JavaScript strings are [string]s of ASCII characters; [toLowerCase]
        folds the letters A-Z and leaves every other character alone.
      - [Date.now()] and the integer columns are [Z] (epoch milliseconds
        are far below 2^53, so the arithmetic of the source is exact).
      - Effects are threaded through a [World]: the database handle, the
        clock, the console and the cookies set on the response.  A call
        either returns or throws; [redirect] of SvelteKit throws. *)

From Stdlib Require Import String Ascii List ZArith Lia Bool Arith.
Import ListNotations.

Open Scope string_scope.
Open Scope list_scope.
Open Scope Z_scope.

(* ===================================================================== *)
(** * types.ts *)
(* ===================================================================== *)

(** [DatabaseResponse = { success: boolean; message: string }] *)
Record DatabaseResponse : Type := {
  success : bool;
  message : string
}.

(** [DatabaseDataResponse<T>]: a union tagged by [success]; only the
    [success: true] member carries [data]. *)
Inductive DatabaseDataResponse (T : Type) : Type :=
| DataSuccess (message : string) (data : T)
| DataFailure (message : string).
Arguments DataSuccess {T} message data.
Arguments DataFailure {T} message.

Definition data_success {T} (r : DatabaseDataResponse T) : bool :=
  match r with DataSuccess _ _ => true | DataFailure _ => false end.

Module BaseUserRecord.
Record t : Type := {
  firstName : string;
  lastName : string;
  email : string;
  hashedPassword : string
}.
End BaseUserRecord.

Module UserRecord.
Record t : Type := {
  id : Z;
  firstName : string;
  lastName : string;
  email : string;
  hashedPassword : string
}.
End UserRecord.

(** The type [cookie] of types.ts: one row of the session table. *)
Module cookie.
Record t : Type := {
  id : string;
  userID : Z;
  expireTime : Z
}.
End cookie.

(* ===================================================================== *)
(** * The better-sqlite3 handle *)
(* ===================================================================== *)

(** The four statements [AuthService] executes with [.run(...)], with their
    bound parameters, in the order the SQL text names them. *)
Inductive Statement : Type :=
| InsertUser (firstName lastName email hashedPassword : string) (deleted : Z)
| InsertCookie (id : string) (userID : Z) (expireTime : Z)
| DeleteCookie (id : string)
| UpdateCookie (expireTime : Z) (id : string).

(** The two statements it executes with [.get(...)]. *)
Inductive Query : Type :=
| SelectUserByEmail (email : string)
| SelectCookieById (id : string).

(** [Statement.run] either yields a [RunResult] (of which the source reads
    [changes] only) with the database in its new state, or throws a
    [SqliteError] and leaves the database as it was. *)
Inductive RunResult (DB : Type) : Type :=
| Ran (db' : DB) (changes : Z)
| Failed (msg : string).
Arguments Ran {DB} db' changes.
Arguments Failed {DB} msg.

(** What [AuthService] needs from [this.db].  The schema is created outside
    the source files at hand, so the service is written against this
    interface; [sqlite] below is the instance for the documented schema. *)
Class Database (DB : Type) : Type := {
  run : DB -> Statement -> RunResult DB;
  get_user : DB -> string -> option UserRecord.t;
  get_cookie : DB -> string -> option cookie.t
}.

(* ===================================================================== *)
(** * Effects *)
(* ===================================================================== *)

(** A line on the console: the handle is opened with
    [{ verbose: console.log }], so every executed statement is logged; the
    failure branches call [console.error] (the label is kept, the value
    printed after it is not). *)
Inductive Line : Type :=
| LogRun (s : Statement)
| LogGet (q : Query)
| LogError (label : string).

(** One call of [cookies.set(name, value, { path })]. *)
Record SetCookie : Type := {
  name : string;
  value : string;
  path : string
}.

Record World (DB : Type) : Type := {
  db : DB;
  clock : Z;                 (* what Date.now() returns *)
  console : list Line;       (* oldest line first *)
  jar : list SetCookie       (* cookies set on the response, newest first *)
}.
Arguments db {DB} w.
Arguments clock {DB} w.
Arguments console {DB} w.
Arguments jar {DB} w.

(** What a JavaScript call can throw here. *)
Inductive Exn : Type :=
| SqliteError (msg : string)
| Redirect (status : Z) (location : string).

Inductive outcome (W A : Type) : Type :=
| Returned (w : W) (a : A)
| Thrown (w : W) (e : Exn).
Arguments Returned {W A} w a.
Arguments Thrown {W A} w e.

Definition M (W A : Type) : Type := W -> outcome W A.

Definition ret {W A} (a : A) : M W A := fun w => Returned w a.

Definition bind {W A B} (m : M W A) (k : A -> M W B) : M W B :=
  fun w =>
    match m w with
    | Returned w' a => k a w'
    | Thrown w' e => Thrown w' e
    end.

Definition throw {W A} (e : Exn) : M W A := fun w => Thrown w e.

Notation "x <- m ;; k" := (bind m (fun x => k))
  (at level 61, m at next level, right associativity).
Notation "m ;;; k" := (bind m (fun _ => k))
  (at level 61, right associativity).

Section Primitives.
Context {DB : Type} {database : Database DB}.

Definition with_db (w : World DB) (d : DB) : World DB :=
  {| db := d; clock := clock w; console := console w; jar := jar w |}.

Definition log (l : Line) : M (World DB) unit :=
  fun w =>
    Returned {| db := db w; clock := clock w;
                console := console w ++ [l]; jar := jar w |} tt.

(** [console.error(label, ...)] *)
Definition console_error (label : string) : M (World DB) unit :=
  log (LogError label).

(** [Date.now()] *)
Definition Date_now : M (World DB) Z := fun w => Returned w (clock w).

(** [this.db.prepare(sql).run(params)], yielding [result.changes]. *)
Definition prepare_run (s : Statement) : M (World DB) Z :=
  log (LogRun s) ;;;
  (fun w =>
     match run (db w) s with
     | Ran d n => Returned (with_db w d) n
     | Failed msg => Thrown w (SqliteError msg)
     end).

(** [this.db.prepare('Select * from users WHERE email = ?').get(email)] *)
Definition prepare_get_user (email : string) : M (World DB) (option UserRecord.t) :=
  log (LogGet (SelectUserByEmail email)) ;;;
  (fun w => Returned w (get_user (db w) email)).

(** [this.db.prepare('Select * from cookie WHERE id = ?').get(id)] *)
Definition prepare_get_cookie (id : string) : M (World DB) (option cookie.t) :=
  log (LogGet (SelectCookieById id)) ;;;
  (fun w => Returned w (get_cookie (db w) id)).

(** [cookies.set(name, value, { path })] *)
Definition cookies_set (n v p : string) : M (World DB) unit :=
  fun w =>
    Returned {| db := db w; clock := clock w; console := console w;
                jar := {| name := n; value := v; path := p |} :: jar w |} tt.
End Primitives.

(* ===================================================================== *)
(** * database.ts: class AuthService *)
(* ===================================================================== *)

Module AuthService.
Section AuthService.
Context {DB : Type} {database : Database DB}.

(** Session lifetime written by [createCookie]: [60 * 60 * 1000]. *)
Definition CREATE_TTL : Z := 60 * 60 * 1000.
(** Session lifetime written by [updateCookie]: [1000 * 30 * 60]. *)
Definition REFRESH_TTL : Z := 1000 * 30 * 60.

Definition getUserByEmail (email : string)
  : M (World DB) (DatabaseDataResponse UserRecord.t) :=
  result <- prepare_get_user email ;;
  match result with
  | Some row => ret (DataSuccess "User was retrieved successfully" row)
  | None => ret (DataFailure "Couldn't find user")
  end.

Definition createUser (user : BaseUserRecord.t) : M (World DB) DatabaseResponse :=
  existingUser <- getUserByEmail (BaseUserRecord.email user) ;;
  if data_success existingUser then
    ret {| success := false; message := "Email already in use" |}
  else
    changes <- prepare_run
                 (InsertUser (BaseUserRecord.firstName user)
                             (BaseUserRecord.lastName user)
                             (BaseUserRecord.email user)
                             (BaseUserRecord.hashedPassword user) 0) ;;
    if changes =? 1 then
      ret {| success := true; message := "User was created successfully" |}
    else
      console_error "Failed cookie creation - BaseUserRecord:" ;;;
      ret {| success := false; message := "User creation failed" |}.

Definition createCookie (cookieID : string) (userID : Z)
  : M (World DB) DatabaseResponse :=
  now <- Date_now ;;
  changes <- prepare_run (InsertCookie cookieID userID (now + 60 * 60 * 1000)) ;;
  if changes =? 1 then
    ret {| success := true; message := "Successful cookie creation" |}
  else
    console_error "Failed cookie creation - UserID:" ;;;
    ret {| success := false; message := "Failed cookie creation" |}.

Definition removeCookie (id : string) : M (World DB) DatabaseResponse :=
  changes <- prepare_run (DeleteCookie id) ;;
  if changes =? 1 then
    ret {| success := true; message := "Successful cookie deletion" |}
  else
    console_error "Failed to remove cookie - userID:" ;;;
    ret {| success := false; message := "Failed cookie deletion" |}.

Definition getCookie (userID : string)
  : M (World DB) (DatabaseDataResponse cookie.t) :=
  result <- prepare_get_cookie userID ;;
  match result with
  | Some row => ret (DataSuccess "Found cookie successfully" row)
  | None =>
      console_error "Failed cookie finding - userID:" ;;;
      ret (DataFailure "Failed to find cookie")
  end.

Definition updateCookie (cookieID : string) : M (World DB) DatabaseResponse :=
  now <- Date_now ;;
  changes <- prepare_run (UpdateCookie (now + 1000 * 30 * 60) cookieID) ;;
  if changes =? 1 then
    ret {| success := true; message := "Updated cookie successfully" |}
  else
    console_error "Failed cookie updating - cookieID:" ;;;
    ret {| success := false; message := "Failed to update cookie" |}.
End AuthService.
End AuthService.

(* ===================================================================== *)
(** * The documented schema *)
(* ===================================================================== *)

(** The tables behind [this.db] are created outside the source files at
    hand; this module gives them as the README and the spec describe
    them. *)
Module Sqlite.

Record UserRow : Type := {
  record : UserRecord.t;
  deleted : Z
}.

Record Tables : Type := {
  users : list UserRow;
  cookie_table : list cookie.t
}.

Definition row_email (r : UserRow) : string := UserRecord.email (record r).

Definition has_email (e : string) (r : UserRow) : bool :=
  String.eqb (row_email r) e.

Definition has_id (i : string) (c : cookie.t) : bool :=
  String.eqb (cookie.id c) i.

Definition has_user_id (u : Z) (r : UserRow) : bool :=
  UserRecord.id (record r) =? u.

(** The next rowid: one more than the largest, 1 in an empty table. *)
Definition next_id (us : list UserRow) : Z :=
  fold_right (fun r m => Z.max (UserRecord.id (record r)) m) 0 us + 1.

Definition set_expireTime (t : Z) (c : cookie.t) : cookie.t :=
  {| cookie.id := cookie.id c; cookie.userID := cookie.userID c;
     cookie.expireTime := t |}.

Definition count {A} (p : A -> bool) (l : list A) : Z :=
  Z.of_nat (length (filter p l)).

(** Modelled from the spec: the schema, which no source file at hand
    declares.  The README and the spec give
      users  (id PRIMARY KEY, firstName, lastName, email UNIQUE, hashedPassword)
      cookie (id PRIMARY KEY, userID FOREIGN KEY, expireTime)
    and the [Insert into users] statement names one more column, [deleted].
    SQLite semantics for that schema: text is compared byte for byte (no
    collation is declared), a row that repeats a PRIMARY KEY or UNIQUE
    value makes [run] throw and changes nothing, and so does a cookie row
    whose [userID] is the id of no user (better-sqlite3 opens every handle
    with foreign keys enforced; the duplicate key is reported first); a
    completed insert reports one change, an update or delete reports the
    number of rows its WHERE clause selects. *)
Definition sqlite_run (t : Tables) (s : Statement) : RunResult Tables :=
  match s with
  | InsertUser fn ln e h d =>
      if existsb (has_email e) (users t) then
        Failed "UNIQUE constraint failed: users.email"
      else
        Ran {| users := users t ++
                 [{| record := {| UserRecord.id := next_id (users t);
                                  UserRecord.firstName := fn;
                                  UserRecord.lastName := ln;
                                  UserRecord.email := e;
                                  UserRecord.hashedPassword := h |};
                     deleted := d |}];
               cookie_table := cookie_table t |} 1
  | InsertCookie i u x =>
      if existsb (has_id i) (cookie_table t) then
        Failed "UNIQUE constraint failed: cookie.id"
      else if existsb (has_user_id u) (users t) then
        Ran {| users := users t;
               cookie_table := cookie_table t ++
                 [{| cookie.id := i; cookie.userID := u; cookie.expireTime := x |}] |} 1
      else
        Failed "FOREIGN KEY constraint failed"
  | DeleteCookie i =>
      Ran {| users := users t;
             cookie_table := filter (fun c => negb (has_id i c)) (cookie_table t) |}
          (count (has_id i) (cookie_table t))
  | UpdateCookie x i =>
      Ran {| users := users t;
             cookie_table := map (fun c => if has_id i c then set_expireTime x c else c)
                                 (cookie_table t) |}
          (count (has_id i) (cookie_table t))
  end.

Definition sqlite_get_user (t : Tables) (e : string) : option UserRecord.t :=
  option_map record (find (has_email e) (users t)).

Definition sqlite_get_cookie (t : Tables) (i : string) : option cookie.t :=
  find (has_id i) (cookie_table t).

#[export] Instance sqlite : Database Tables := {|
  run := sqlite_run;
  get_user := sqlite_get_user;
  get_cookie := sqlite_get_cookie
|}.

(** What the constraints of the schema maintain. *)
Definition unique_emails (t : Tables) : Prop := NoDup (map row_email (users t)).
Definition unique_ids (t : Tables) : Prop := NoDup (map cookie.id (cookie_table t)).

End Sqlite.

#[global] Existing Instance Sqlite.sqlite.

(* ===================================================================== *)
(** * What the form actions import *)
(* ===================================================================== *)

(** [String.prototype.toLowerCase], on ASCII. *)
Definition lower_ascii (c : ascii) : ascii :=
  let n := nat_of_ascii c in
  if ((65 <=? n) && (n <=? 90))%nat then ascii_of_nat (n + 32) else c.

Fixpoint toLowerCase (s : string) : string :=
  match s with
  | EmptyString => EmptyString
  | String c s' => String (lower_ascii c) (toLowerCase s')
  end.

(** [generateRandomInteger(random, max)] of @oslojs/crypto returns an
    integer below [max], drawn from the bytes [random] supplies.  The
    reader is an oracle here: [rand i] is the draw for position [i]. *)
Definition RandomReader : Type := nat -> nat.

Definition generateRandomInteger (rand : RandomReader) (max : nat) (i : nat) : nat :=
  (rand i mod max)%nat.

(** [alphabet[k]], appended to a string ([undefined] prints as such). *)
Definition char_at (alphabet : string) (k : nat) : string :=
  match String.get k alphabet with
  | Some c => String c EmptyString
  | None => "undefined"
  end.

(** The loop of [generateRandomString(random, alphabet, length)]:
    [for (i = 0; i < length; i++) result += alphabet[generateRandomInteger(...)]],
    with [n] iterations left at position [i]. *)
Fixpoint generateRandomString_loop (rand : RandomReader) (alphabet : string)
         (n i : nat) (result : string) : string :=
  match n with
  | O => result
  | S n' =>
      generateRandomString_loop rand alphabet n' (S i)
        (result ++ char_at alphabet
                     (generateRandomInteger rand (String.length alphabet) i))%string
  end.

Definition generateRandomString (rand : RandomReader) (alphabet : string)
           (length : nat) : string :=
  generateRandomString_loop rand alphabet length 0 EmptyString.

(** The [argon2] package: [hash(password, { timeCost })] salts the password
    with fresh random bytes, [verify(hash, password)] checks a password
    against a hash. *)
Class Argon2 : Type := {
  argon2_hash : string -> string -> Z -> string;   (* salt, password, timeCost *)
  argon2_verify : string -> string -> bool         (* hash, password *)
}.

(* ===================================================================== *)
(** * routes/(marketing)/login/+page.server.ts *)
(* ===================================================================== *)

(** The fields the actions read with [<string>data.get(...)]; the cast
    makes each a string, and so they are here. *)
Record FormData : Type := {
  form_email : string;
  form_password : string;
  form_firstName : string;
  form_lastName : string
}.

(** A request, with what the environment supplies while it is handled. *)
Record RequestEvent : Type := {
  formData : FormData;
  random : RandomReader;     (* crypto.getRandomValues *)
  salt : string              (* the salt argon2.hash draws *)
}.

(** What an action returns: [fail(status, { error })], or nothing. *)
Inductive ActionReturn : Type :=
| ActionFailure (status : Z) (error : string)
| Void.

Module actions.
Section actions.
Context {DB : Type} {database : Database DB} {argon2 : Argon2}.

Definition ALPHABET : string := "ABCDEFGHIJKLMNOPQRSTUVWXYZ".

(** [redirect(status, location)] throws (the source calls it as a
    statement): nothing after it runs, SvelteKit answers with the
    redirect. *)
Definition redirect (status : Z) (location : string) : M (World DB) unit :=
  throw (Redirect status location).

(** [fail(status, { error })] *)
Definition fail (status : Z) (error : string) : ActionReturn :=
  ActionFailure status error.

(** The session id the login action draws for a request. *)
Definition cookieID_of (ev : RequestEvent) : string :=
  generateRandomString (random ev) ALPHABET 20.

Definition login (ev : RequestEvent) : M (World DB) ActionReturn :=
  let data := formData ev in
  let email := toLowerCase (form_email data) in
  let password := form_password data in
  user <- AuthService.getUserByEmail email ;;
  match user with
  | DataSuccess _ user_data =>
      if argon2_verify (UserRecord.hashedPassword user_data) password then
        let cookieID := generateRandomString (random ev) ALPHABET 20 in
        AuthService.createCookie cookieID (UserRecord.id user_data) ;;;
        cookies_set "sessionID" cookieID "/" ;;;
        redirect 302 "/home"
      else ret tt
  | DataFailure _ => ret tt
  end ;;;
  ret (fail 422 "Incorrect username or password").

Definition signup (ev : RequestEvent) : M (World DB) ActionReturn :=
  let data := formData ev in
  let email := form_email data in
  let password := form_password data in
  let passwordHash := argon2_hash (salt ev) password 2 in
  let firstName := form_firstName data in
  let lastName := form_lastName data in
  let newUserData :=
    {| BaseUserRecord.firstName := firstName;
       BaseUserRecord.lastName := lastName;
       BaseUserRecord.email := toLowerCase email;
       BaseUserRecord.hashedPassword := passwordHash |} in
  result <- AuthService.createUser newUserData ;;
  if negb (success result) then ret (fail 422 (message result))
  else ret Void.
End actions.
End actions.

(** What SvelteKit makes of an action: a thrown [Redirect] is the redirect
    response, a returned [ActionFailure] the failure response, any other
    throw an error response. *)
Inductive ActionResult : Type :=
| ResultSuccess
| ResultFailure (status : Z) (error : string)
| ResultRedirect (status : Z) (location : string)
| ResultError.

Definition action_result {W} (o : outcome W ActionReturn) : ActionResult :=
  match o with
  | Returned _ (ActionFailure status error) => ResultFailure status error
  | Returned _ Void => ResultSuccess
  | Thrown _ (Redirect status location) => ResultRedirect status location
  | Thrown _ (SqliteError _) => ResultError
  end.

Definition world_of {W A} (o : outcome W A) : W :=
  match o with Returned w _ => w | Thrown w _ => w end.

(* ===================================================================== *)
(** * Vocabulary of the statements *)
(* ===================================================================== *)

Section Vocabulary.
Context {DB : Type} {database : Database DB} {argon2 : Argon2}.

(** The world after [line]s were printed and the handle moved to [d]. *)
Definition after (w : World DB) (d : DB) (lines : list Line) : World DB :=
  {| db := d; clock := clock w; console := console w ++ lines; jar := jar w |}.

(** The world after [cookies.set] added [c] to the response. *)
Definition with_cookie (w : World DB) (c : SetCookie) : World DB :=
  {| db := db w; clock := clock w; console := console w; jar := c :: jar w |}.

(** The shape shared by the three session writes: one [run], then
    [changes == 1] decides between the two responses; the failure branch
    prints [label] first. *)
Definition write_response (n : Z) (ok_msg fail_msg : string) : DatabaseResponse :=
  if n =? 1 then {| success := true; message := ok_msg |}
  else {| success := false; message := fail_msg |}.

Definition write_lines (s : Statement) (n : Z) (label : string) : list Line :=
  if n =? 1 then [LogRun s] else [LogRun s; LogError label].

(** How many statements were run, by the console. *)
Definition runs (lines : list Line) : list Statement :=
  flat_map (fun l => match l with LogRun s => [s] | _ => [] end) lines.

(** The message of both login failures. *)
Definition GENERIC_FAILURE : string := "Incorrect username or password".

(** The lookup the login action makes for a request. *)
Definition login_email (ev : RequestEvent) : string :=
  toLowerCase (form_email (formData ev)).

(** The world in which the login action, having found the user, goes on. *)
Definition looked_up (w : World DB) (ev : RequestEvent) : World DB :=
  after w (db w) [LogGet (SelectUserByEmail (login_email ev))].

(** The cookie the login action sets. *)
Definition session_cookie (ev : RequestEvent) : SetCookie :=
  {| name := "sessionID"; value := actions.cookieID_of ev; path := "/" |}.

(** The statement [createUser] runs for a record. *)
Definition insert_of (user : BaseUserRecord.t) : Statement :=
  InsertUser (BaseUserRecord.firstName user) (BaseUserRecord.lastName user)
             (BaseUserRecord.email user) (BaseUserRecord.hashedPassword user) 0.

(** The record the signup action builds from a request. *)
Definition newUserData_of (ev : RequestEvent) : BaseUserRecord.t :=
  {| BaseUserRecord.firstName := form_firstName (formData ev);
     BaseUserRecord.lastName := form_lastName (formData ev);
     BaseUserRecord.email := toLowerCase (form_email (formData ev));
     BaseUserRecord.hashedPassword :=
       argon2_hash (salt ev) (form_password (formData ev)) 2 |}.

End Vocabulary.

Section StoredUser.
Import Sqlite.

(** The tables after [Insert into users] stored [user]. *)
Definition with_user (t : Tables) (user : BaseUserRecord.t) : Tables :=
  {| users := users t ++
       [{| record := {| UserRecord.id := next_id (users t);
                        UserRecord.firstName := BaseUserRecord.firstName user;
                        UserRecord.lastName := BaseUserRecord.lastName user;
                        UserRecord.email := BaseUserRecord.email user;
                        UserRecord.hashedPassword := BaseUserRecord.hashedPassword user |};
           deleted := 0 |}];
     cookie_table := cookie_table t |}.
End StoredUser.

Section Drawing.
Local Open Scope nat_scope.

(** What the loop appends from position [i] on, in [n] iterations. *)
Fixpoint drawn (rand : RandomReader) (alphabet : string) (n i : nat) : string :=
  match n with
  | O => EmptyString
  | S n' =>
      (char_at alphabet (generateRandomInteger rand (String.length alphabet) i)
       ++ drawn rand alphabet n' (S i))%string
  end.

(** Where a character first occurs in the alphabet. *)
Fixpoint position (c : ascii) (alphabet : string) : nat :=
  match alphabet with
  | EmptyString => O
  | String x rest => if Ascii.eqb x c then O else S (position c rest)
  end.

(** The reader under which the loop spells out [s]. *)
Definition reader_of (s alphabet : string) : RandomReader :=
  fun i => match String.get i s with
           | Some c => position c alphabet
           | None => O
           end.

End Drawing.

(* ===================================================================== *)
(** * Concrete worlds *)
(* ===================================================================== *)

Module Scenario.
Import Sqlite.

(** A stand-in for the argon2 package, to run the actions on concrete
    requests: the hash is the salt, a dollar sign and the password, and a
    password verifies against the hashes that end in a dollar sign
    followed by it. *)
Definition plain_hash (salt password : string) (timeCost : Z) : string :=
  (salt ++ "$" ++ password)%string.

Definition plain_verify (hash password : string) : bool :=
  let n := String.length password in
  String.eqb (substring (String.length hash - S n) (S n) hash)
             ("$" ++ password)%string.

Definition plain_argon2 : Argon2 :=
  {| argon2_hash := plain_hash; argon2_verify := plain_verify |}.

Definition user_row (id : Z) (email hash : string) : UserRow :=
  {| record := {| UserRecord.id := id;
                  UserRecord.firstName := "Ada";
                  UserRecord.lastName := "Lovelace";
                  UserRecord.email := email;
                  UserRecord.hashedPassword := hash |};
     deleted := 0 |}.

Definition world (us : list UserRow) (cs : list cookie.t) : World Tables :=
  {| db := {| users := us; cookie_table := cs |};
     clock := 1700000000000; console := []; jar := [] |}.

Definition request (email password : string) (rand : RandomReader) : RequestEvent :=
  {| formData := {| form_email := email; form_password := password;
                    form_firstName := "Ada"; form_lastName := "Lovelace" |};
     random := rand;
     salt := "salt" |}.

(** The default credentials of the README. *)
Definition default_user : UserRow := user_row 1 "1234@gmail.com" "salt$1234".


End Scenario.

(* ===================================================================== *)
(** * database.ts: class BaseDatabaseService *)
(* ===================================================================== *)

Module BaseDatabaseService.

(** What better-sqlite3 does for the constructor: [new Database(filename,
    options)] yields the handle or throws, and so does running a pragma on
    a handle (which leaves it in a new state). *)
Record Driver (DB : Type) : Type := {
  new_Database : string -> DB + string;
  run_pragma : DB -> string -> DB + string
}.
Arguments new_Database {DB} d filename.
Arguments run_pragma {DB} d handle sql.

(** A line the constructor can cause on the console: the statement, through
    [verbose: console.log], and
    [console.error('Database initialization failed:', error)]. *)
Inductive InitLine : Type :=
| Verbose (sql : string)
| InitializationFailed (error : string).

(** The static field [dbInstance] (null or the handle), and the console. *)
Record Statics (DB : Type) : Type := {
  dbInstance : option DB;
  lines : list InitLine
}.
Arguments dbInstance {DB} s.
Arguments lines {DB} s.

Section constructor.
Context {DB : Type} (driver : Driver DB).

Definition PRAGMA : string := "PRAGMA journal_mode = WAL".

(** [constructor()], returning [this.db]. *)
Definition constructor : M (Statics DB) DB :=
  fun s =>
    match dbInstance s with
    | Some d => Returned s d
    | None =>
        match new_Database driver "mydb.sqlite" with
        | inr error =>
            Thrown {| dbInstance := None;
                      lines := lines s ++ [InitializationFailed error] |}
                   (SqliteError error)
        | inl d =>
            match run_pragma driver d PRAGMA with
            | inl d' =>
                Returned {| dbInstance := Some d';
                            lines := lines s ++ [Verbose PRAGMA] |} d'
            | inr error =>
                Thrown {| dbInstance := Some d;
                          lines := lines s ++ [Verbose PRAGMA; InitializationFailed error] |}
                       (SqliteError error)
            end
        end
    end.
End constructor.
End BaseDatabaseService.

(* ===================================================================== *)
(** * Sequences of calls *)
(* ===================================================================== *)

Section Calls.
Import Sqlite.
Context {argon2 : Argon2}.

(** The world in which a later request is handled: the clock reads [t] and
    no cookie is set on the new response yet. *)
Definition incoming (w : World Tables) (t : Z) : World Tables :=
  {| db := db w; clock := t; console := console w; jar := [] |}.

(** The tables after [Insert into cookie] stored [c]. *)
Definition with_session (t : Tables) (c : cookie.t) : Tables :=
  {| users := users t; cookie_table := cookie_table t ++ [c] |}.

(** The session the login action stores for [u]. *)
Definition session_of (w : World Tables) (ev : RequestEvent) (u : UserRecord.t) : cookie.t :=
  {| cookie.id := actions.cookieID_of ev; cookie.userID := UserRecord.id u;
     cookie.expireTime := clock w + 60 * 60 * 1000 |}.

(** Every stored email is its own lower-case form. *)
Definition lower_case_emails (t : Tables) : Prop :=
  Forall (fun r => toLowerCase (row_email r) = row_email r) (users t).

(** Every session belongs to a stored user. *)
Definition sessions_owned (t : Tables) : Prop :=
  forall c, In c (cookie_table t) ->
            exists r, In r (users t) /\ UserRecord.id (record r) = cookie.userID c.

Definition consistent (t : Tables) : Prop :=
  unique_emails t /\ unique_ids t /\ lower_case_emails t /\ sessions_owned t.

(** The entry points a request reaches: the two form actions, and the
    session reads and writes of [AuthService]. *)
Inductive Call : Type :=
| CallSignup (ev : RequestEvent)
| CallLogin (ev : RequestEvent)
| CallGetCookie (id : string)
| CallUpdateCookie (id : string)
| CallRemoveCookie (id : string).

(** The world after a call made at time [fst tc], however the call ends. *)
Definition serve (w : World Tables) (tc : Z * Call) : World Tables :=
  let w0 := incoming w (fst tc) in
  match snd tc with
  | CallSignup ev => world_of (actions.signup ev w0)
  | CallLogin ev => world_of (actions.login ev w0)
  | CallGetCookie id => world_of (AuthService.getCookie id w0)
  | CallUpdateCookie id => world_of (AuthService.updateCookie id w0)
  | CallRemoveCookie id => world_of (AuthService.removeCookie id w0)
  end.
End Calls.

Module Drivers.
(** Handles that only record their journal mode, for the constructor:
    [true] once WAL is set. *)
Definition working : BaseDatabaseService.Driver bool :=
  {| BaseDatabaseService.new_Database := fun _ => inl false;
     BaseDatabaseService.run_pragma := fun _ _ => inl true |}.

(** The file cannot be opened. *)
Definition unopenable : BaseDatabaseService.Driver bool :=
  {| BaseDatabaseService.new_Database := fun _ => inr "unable to open database file";
     BaseDatabaseService.run_pragma := fun _ _ => inl true |}.


Definition fresh_process : BaseDatabaseService.Statics bool :=
  {| BaseDatabaseService.dbInstance := None; BaseDatabaseService.lines := [] |}.
End Drivers.

(* ===================================================================== *)
(** * Strings *)
(* ===================================================================== *)

Lemma lower_ascii_idempotent (c : ascii) :
  lower_ascii (lower_ascii c) = lower_ascii c.
Proof.
  destruct c as [b0 b1 b2 b3 b4 b5 b6 b7].
  destruct b0, b1, b2, b3, b4, b5, b6, b7; reflexivity.
Qed.

Lemma toLowerCase_idempotent (s : string) :
  toLowerCase (toLowerCase s) = toLowerCase s.
Proof.
  induction s as [| c s IH]; simpl.
  - reflexivity.
  - rewrite lower_ascii_idempotent, IH. reflexivity.
Qed.

(* ===================================================================== *)
(** * Running one statement *)
(* ===================================================================== *)

Section RunLemmas.
Context {DB : Type} {database : Database DB}.

Lemma getUserByEmail_run (w : World DB) (e : string) :
  AuthService.getUserByEmail e w =
  Returned (after w (db w) [LogGet (SelectUserByEmail e)])
           (match get_user (db w) e with
            | Some row => DataSuccess "User was retrieved successfully" row
            | None => DataFailure "Couldn't find user"
            end).
Proof.
  unfold AuthService.getUserByEmail, prepare_get_user, bind, log, ret, after. simpl.
  destruct (get_user (db w) e); reflexivity.
Qed.

Lemma prepare_run_ran (w : World DB) (s : Statement) (d : DB) (n : Z) :
  run (db w) s = Ran d n ->
  prepare_run s w = Returned (after w d [LogRun s]) n.
Proof.
  intros Hrun. unfold prepare_run, bind, log. simpl. rewrite Hrun. reflexivity.
Qed.

Lemma prepare_run_failed (w : World DB) (s : Statement) (msg : string) :
  run (db w) s = Failed msg ->
  prepare_run s w = Thrown (after w (db w) [LogRun s]) (SqliteError msg).
Proof.
  intros Hrun. unfold prepare_run, bind, log. simpl. rewrite Hrun. reflexivity.
Qed.

Lemma createCookie_ran (w : World DB) (cookieID : string) (userID : Z) (d : DB) (n : Z) :
  run (db w) (InsertCookie cookieID userID (clock w + 60 * 60 * 1000)) = Ran d n ->
  AuthService.createCookie cookieID userID w =
  Returned (after w d (write_lines (InsertCookie cookieID userID (clock w + 60 * 60 * 1000))
                                   n "Failed cookie creation - UserID:"))
           (write_response n "Successful cookie creation" "Failed cookie creation").
Proof.
  intros Hrun. unfold AuthService.createCookie, bind at 1, Date_now.
  unfold bind. rewrite (prepare_run_ran _ _ _ _ Hrun).
  unfold write_response, write_lines.
  destruct (n =? 1); unfold console_error, log, ret, after; simpl;
    rewrite <- ?app_assoc; reflexivity.
Qed.

Lemma createCookie_failed (w : World DB) (cookieID : string) (userID : Z) (msg : string) :
  run (db w) (InsertCookie cookieID userID (clock w + 60 * 60 * 1000)) = Failed msg ->
  AuthService.createCookie cookieID userID w =
  Thrown (after w (db w) [LogRun (InsertCookie cookieID userID (clock w + 60 * 60 * 1000))])
         (SqliteError msg).
Proof.
  intros Hrun. unfold AuthService.createCookie, bind at 1, Date_now.
  unfold bind. rewrite (prepare_run_failed _ _ _ Hrun). reflexivity.
Qed.

Lemma updateCookie_ran (w : World DB) (cookieID : string) (d : DB) (n : Z) :
  run (db w) (UpdateCookie (clock w + 1000 * 30 * 60) cookieID) = Ran d n ->
  AuthService.updateCookie cookieID w =
  Returned (after w d (write_lines (UpdateCookie (clock w + 1000 * 30 * 60) cookieID)
                                   n "Failed cookie updating - cookieID:"))
           (write_response n "Updated cookie successfully" "Failed to update cookie").
Proof.
  intros Hrun. unfold AuthService.updateCookie, bind at 1, Date_now.
  unfold bind. rewrite (prepare_run_ran _ _ _ _ Hrun).
  unfold write_response, write_lines.
  destruct (n =? 1); unfold console_error, log, ret, after; simpl;
    rewrite <- ?app_assoc; reflexivity.
Qed.

Lemma removeCookie_ran (w : World DB) (id : string) (d : DB) (n : Z) :
  run (db w) (DeleteCookie id) = Ran d n ->
  AuthService.removeCookie id w =
  Returned (after w d (write_lines (DeleteCookie id) n "Failed to remove cookie - userID:"))
           (write_response n "Successful cookie deletion" "Failed cookie deletion").
Proof.
  intros Hrun. unfold AuthService.removeCookie.
  unfold bind. rewrite (prepare_run_ran _ _ _ _ Hrun).
  unfold write_response, write_lines.
  destruct (n =? 1); unfold console_error, log, ret, after; simpl;
    rewrite <- ?app_assoc; reflexivity.
Qed.

Lemma write_response_success (n : Z) (ok_msg fail_msg : string) :
  success (write_response n ok_msg fail_msg) = true <-> n = 1.
Proof.
  unfold write_response. destruct (Z.eqb_spec n 1); simpl; split; congruence.
Qed.

Lemma write_response_failure (n : Z) (ok_msg fail_msg : string) :
  n <> 1 ->
  write_response n ok_msg fail_msg = {| success := false; message := fail_msg |}.
Proof.
  intros Hn. unfold write_response. destruct (Z.eqb_spec n 1); congruence.
Qed.

Lemma runs_write_lines (s : Statement) (n : Z) (label : string) :
  runs (write_lines s n label) = [s].
Proof. unfold write_lines. destruct (n =? 1); reflexivity. Qed.

Lemma runs_app (l1 l2 : list Line) : runs (l1 ++ l2) = runs l1 ++ runs l2.
Proof. unfold runs. apply flat_map_app. Qed.
End RunLemmas.

(* ===================================================================== *)
(** * The tables under the documented schema *)
(* ===================================================================== *)

Module SqliteFacts.
Import Sqlite.

Lemma existsb_has_email_false (e : string) (us : list UserRow) :
  existsb (has_email e) us = false <-> (forall r, In r us -> row_email r <> e).
Proof.
  induction us as [| a us IH]; simpl.
  - split; [intros _ r [] | reflexivity].
  - rewrite orb_false_iff, IH. unfold has_email at 1.
    rewrite String.eqb_neq. split.
    + intros [Ha Hus] r [<- | Hr]; auto.
    + intros Hall. split; [apply Hall; now left | intros r Hr; apply Hall; now right].
Qed.

Lemma existsb_has_email_true (e : string) (us : list UserRow) :
  existsb (has_email e) us = true <-> (exists r, In r us /\ row_email r = e).
Proof.
  rewrite existsb_exists. unfold has_email.
  split; intros [r [Hr He]]; exists r; split; auto; now apply String.eqb_eq.
Qed.

Lemma existsb_has_id_false (i : string) (cs : list cookie.t) :
  existsb (has_id i) cs = false <-> ~ In i (map cookie.id cs).
Proof.
  induction cs as [| a cs IH]; simpl.
  - split; [intros _ [] | reflexivity].
  - rewrite orb_false_iff, IH. unfold has_id at 1.
    rewrite String.eqb_neq. tauto.
Qed.

Lemma find_existsb_false {A} (p : A -> bool) (l : list A) :
  existsb p l = false -> find p l = None.
Proof.
  induction l as [| a l IH]; simpl; [reflexivity |].
  destruct (p a); simpl; [discriminate | exact IH].
Qed.

Lemma find_app_fresh {A} (p : A -> bool) (l : list A) (x : A) :
  existsb p l = false -> p x = true -> find p (l ++ [x]) = Some x.
Proof.
  induction l as [| a l IH]; simpl; intros Hl Hx.
  - now rewrite Hx.
  - destruct (p a); simpl in *; [discriminate | auto].
Qed.

(** Under UNIQUE(email) a stored row is the one its email selects. *)
Lemma find_has_email_unique (us : list UserRow) (r : UserRow) :
  NoDup (map row_email us) -> In r us ->
  find (has_email (row_email r)) us = Some r.
Proof.
  induction us as [| a us IH]; simpl; intros Hnd Hin; [contradiction |].
  inversion Hnd as [| ? ? Hnotin Hnd']; subst.
  destruct Hin as [-> | Hin].
  - unfold has_email. now rewrite String.eqb_refl.
  - unfold has_email at 1.
    destruct (String.eqb_spec (row_email a) (row_email r)) as [Heq | Hne].
    + exfalso. apply Hnotin. rewrite Heq. now apply in_map.
    + auto.
Qed.

Lemma find_has_email_some (us : list UserRow) (e : string) (r : UserRow) :
  find (has_email e) us = Some r -> In r us /\ row_email r = e.
Proof.
  intros Hf. apply find_some in Hf. destruct Hf as [Hin He].
  split; [exact Hin | now apply String.eqb_eq].
Qed.

(** Under PRIMARY KEY(id) a stored session is the one its id selects. *)
Lemma find_has_id_unique (cs : list cookie.t) (c : cookie.t) :
  NoDup (map cookie.id cs) -> In c cs ->
  find (has_id (cookie.id c)) cs = Some c.
Proof.
  induction cs as [| a cs IH]; simpl; intros Hnd Hin; [contradiction |].
  inversion Hnd as [| ? ? Hnotin Hnd']; subst.
  destruct Hin as [-> | Hin].
  - unfold has_id. now rewrite String.eqb_refl.
  - unfold has_id at 1.
    destruct (String.eqb_spec (cookie.id a) (cookie.id c)) as [Heq | Hne].
    + exfalso. apply Hnotin. rewrite Heq. now apply in_map.
    + auto.
Qed.

Lemma filter_has_id_fresh (i : string) (cs : list cookie.t) :
  ~ In i (map cookie.id cs) -> filter (has_id i) cs = [].
Proof.
  induction cs as [| a cs IH]; simpl; intros Hnotin; [reflexivity |].
  unfold has_id at 1.
  destruct (String.eqb_spec (cookie.id a) i) as [Heq | Hne].
  - exfalso. apply Hnotin. now left.
  - apply IH. intros Hin. apply Hnotin. now right.
Qed.

(** Under PRIMARY KEY(id) a statement keyed by a stored id touches one row. *)
Lemma count_has_id_unique (cs : list cookie.t) (c : cookie.t) :
  NoDup (map cookie.id cs) -> In c cs ->
  count (has_id (cookie.id c)) cs = 1.
Proof.
  unfold count.
  induction cs as [| a cs IH]; simpl; intros Hnd Hin; [contradiction |].
  inversion Hnd as [| ? ? Hnotin Hnd']; subst.
  destruct Hin as [-> | Hin].
  - unfold has_id at 1. rewrite String.eqb_refl. simpl.
    now rewrite (filter_has_id_fresh _ _ Hnotin).
  - unfold has_id at 1.
    destruct (String.eqb_spec (cookie.id a) (cookie.id c)) as [Heq | Hne].
    + exfalso. apply Hnotin. rewrite Heq. now apply in_map.
    + auto.
Qed.

Lemma count_has_id_fresh (i : string) (cs : list cookie.t) :
  ~ In i (map cookie.id cs) -> count (has_id i) cs = 0.
Proof. intros Hi. unfold count. now rewrite filter_has_id_fresh. Qed.

Lemma find_update (x : Z) (i j : string) (cs : list cookie.t) :
  find (has_id j) (map (fun c => if has_id i c then set_expireTime x c else c) cs) =
  option_map (fun c => if has_id i c then set_expireTime x c else c)
             (find (has_id j) cs).
Proof.
  induction cs as [| a cs IH]; simpl; [reflexivity |].
  assert (Hid : has_id j (if has_id i a then set_expireTime x a else a) = has_id j a).
  { destruct (has_id i a); reflexivity. }
  rewrite Hid. destruct (has_id j a); [reflexivity | exact IH].
Qed.

Lemma find_delete_other (i j : string) (cs : list cookie.t) :
  i <> j ->
  find (has_id j) (filter (fun c => negb (has_id i c)) cs) = find (has_id j) cs.
Proof.
  intros Hij. induction cs as [| a cs IH]; simpl; [reflexivity |].
  destruct (has_id i a) eqn:Hi; simpl.
  - assert (Hj : has_id j a = false).
    { unfold has_id in *. apply String.eqb_eq in Hi. apply String.eqb_neq. congruence. }
    now rewrite Hj.
  - destruct (has_id j a); [reflexivity | exact IH].
Qed.

Lemma find_delete_same (i : string) (cs : list cookie.t) :
  find (has_id i) (filter (fun c => negb (has_id i c)) cs) = None.
Proof.
  induction cs as [| a cs IH]; simpl; [reflexivity |].
  destruct (has_id i a) eqn:Ha; simpl; [exact IH | now rewrite Ha].
Qed.

(** A user that a lookup returns is stored, so its id satisfies the
    foreign key of the session table. *)
Lemma existsb_has_user_id_true (u : Z) (us : list UserRow) :
  existsb (has_user_id u) us = true <->
  (exists r, In r us /\ UserRecord.id (record r) = u).
Proof.
  rewrite existsb_exists. unfold has_user_id.
  split; intros [r [Hr Hu]]; exists r; split; auto; now apply Z.eqb_eq.
Qed.

Lemma found_user_has_id (t : Tables) (e : string) (u : UserRecord.t) :
  sqlite_get_user t e = Some u ->
  existsb (has_user_id (UserRecord.id u)) (users t) = true.
Proof.
  unfold sqlite_get_user. intros Hget.
  destruct (find (has_email e) (users t)) as [r |] eqn:Hfind; [| discriminate].
  apply find_some in Hfind. simpl in Hget. inversion Hget; subst.
  apply existsb_has_user_id_true. exists r. tauto.
Qed.

(** The constraints hold after every statement that ran. *)
Lemma run_unique_emails (t t' : Tables) (s : Statement) (n : Z) :
  unique_emails t -> sqlite_run t s = Ran t' n -> unique_emails t'.
Proof.
  unfold unique_emails. intros Hnd Hrun.
  destruct s as [fn ln e h d | i u x | i | x i]; simpl in Hrun.
  - destruct (existsb (has_email e) (users t)) eqn:Hex; [discriminate |].
    inversion Hrun; subst; clear Hrun. simpl.
    rewrite map_app. simpl.
    apply NoDup_app; [exact Hnd | repeat constructor; intros [] | ].
    intros y Hy [<- | []].
    apply in_map_iff in Hy. destruct Hy as [r [Hr Hin]].
    apply existsb_has_email_false with (r := r) in Hex; auto.
  - destruct (existsb (has_id i) (cookie_table t)); [discriminate |].
    destruct (existsb (has_user_id u) (users t)); [| discriminate].
    inversion Hrun; subst; exact Hnd.
  - inversion Hrun; subst; exact Hnd.
  - inversion Hrun; subst; exact Hnd.
Qed.

Lemma map_id_update (x : Z) (i : string) (cs : list cookie.t) :
  map cookie.id (map (fun c => if has_id i c then set_expireTime x c else c) cs) =
  map cookie.id cs.
Proof.
  rewrite map_map. apply map_ext. intros c. destruct (has_id i c); reflexivity.
Qed.

(** Deleting sessions keeps the ids distinct. *)
Lemma unique_ids_filter (keep : cookie.t -> bool) (cs : list cookie.t) :
  NoDup (map cookie.id cs) -> NoDup (map cookie.id (filter keep cs)).
Proof.
  intros Hnd. induction cs as [| a cs IH]; simpl; [constructor |].
  inversion Hnd as [| ? ? Hnotin Hnd']; subst.
  destruct (keep a); simpl; auto.
  constructor; auto.
  intros Hin. apply Hnotin.
  apply in_map_iff in Hin. destruct Hin as [y [Hy Hin]].
  apply filter_In in Hin. rewrite <- Hy. apply in_map. tauto.
Qed.

Lemma run_unique_ids (t t' : Tables) (s : Statement) (n : Z) :
  unique_ids t -> sqlite_run t s = Ran t' n -> unique_ids t'.
Proof.
  unfold unique_ids. intros Hnd Hrun.
  destruct s as [fn ln e h d | i u x | i | x i]; simpl in Hrun.
  - destruct (existsb (has_email e) (users t)); [discriminate |].
    inversion Hrun; subst; exact Hnd.
  - destruct (existsb (has_id i) (cookie_table t)) eqn:Hex; [discriminate |].
    destruct (existsb (has_user_id u) (users t)); [| discriminate].
    inversion Hrun; subst; clear Hrun. simpl.
    rewrite map_app. simpl.
    apply NoDup_app; [exact Hnd | repeat constructor; intros [] | ].
    intros y Hy [<- | []].
    now apply existsb_has_id_false in Hex.
  - inversion Hrun; subst; simpl. now apply unique_ids_filter.
  - inversion Hrun; subst; simpl. now rewrite map_id_update.
Qed.
End SqliteFacts.

(* ===================================================================== *)
(** * Credential store *)
(* ===================================================================== *)

Section CredentialStore.
Import Sqlite SqliteFacts.

Lemma get_user_stored (t : Tables) (r : UserRow) :
  unique_emails t -> In r (users t) ->
  sqlite_get_user t (row_email r) = Some (record r).
Proof.
  intros Hnd Hin. unfold sqlite_get_user.
  now rewrite (find_has_email_unique _ _ Hnd Hin).
Qed.

Lemma get_user_email (t : Tables) (e : string) (u : UserRecord.t) :
  sqlite_get_user t e = Some u -> UserRecord.email u = e.
Proof.
  unfold sqlite_get_user. intros Hget.
  destruct (find (has_email e) (users t)) as [r |] eqn:Hf; [| discriminate].
  apply find_has_email_some in Hf. simpl in Hget. inversion Hget; subst.
  apply Hf.
Qed.
End CredentialStore.

(** C1, as the specification states it, fails: with a user stored as "a@b.com",
    [getUserByEmail "A@b.com"] does not find that user, although the two
    emails are equal up to letter casing. *)
Lemma getUserByEmail_is_case_sensitive :
  let w := Scenario.world [Scenario.user_row 1 "a@b.com" "salt$pw"] [] in
  toLowerCase "A@b.com" = toLowerCase "a@b.com" /\
  AuthService.getUserByEmail "A@b.com" w =
  Returned (after w (db w) [LogGet (SelectUserByEmail "A@b.com")])
           (DataFailure "Couldn't find user").
Proof. split; reflexivity. Qed.

(** C1, amended: [getUserByEmail] compares the email exactly.  For a stored
    user whose email is in lower case (as signup stores it) and a string
    [q] equal to it up to letter casing, the lookup on [toLowerCase q] (what
    the login and signup actions pass) returns that user, and the lookup on
    [q] itself does not return that user whenever [q] differs from the
    stored email. *)
Theorem getUserByEmail_exact_match :
  forall (w : World Sqlite.Tables) (r : Sqlite.UserRow) (q : string),
    Sqlite.unique_emails (db w) ->
    In r (Sqlite.users (db w)) ->
    toLowerCase (Sqlite.row_email r) = Sqlite.row_email r ->
    toLowerCase q = toLowerCase (Sqlite.row_email r) ->
    AuthService.getUserByEmail (toLowerCase q) w =
      Returned (after w (db w) [LogGet (SelectUserByEmail (toLowerCase q))])
               (DataSuccess "User was retrieved successfully" (Sqlite.record r))
    /\ (q <> Sqlite.row_email r ->
        forall w' msg,
          AuthService.getUserByEmail q w <> Returned w' (DataSuccess msg (Sqlite.record r))).
Proof.
  intros w r q Hnd Hin Hlow Hq. split.
  - rewrite getUserByEmail_run, Hq, Hlow. cbn [get_user Sqlite.sqlite].
    now rewrite (get_user_stored _ _ Hnd Hin).
  - intros Hne w' msg. rewrite getUserByEmail_run. cbn [get_user Sqlite.sqlite].
    destruct (Sqlite.sqlite_get_user (db w) q) as [u |] eqn:Hget; [| discriminate].
    intros Heq. inversion Heq; subst.
    apply get_user_email in Hget. apply Hne. symmetry. exact Hget.
Qed.

(** The spec's own example: the user is stored as "a@b.com", the query is "A@b.com". *)
Lemma getUserByEmail_exact_match_witness :
  let r := Scenario.user_row 1 "a@b.com" "salt$pw" in
  let w := Scenario.world [r] [] in
  AuthService.getUserByEmail (toLowerCase "A@b.com") w =
    Returned (after w (db w) [LogGet (SelectUserByEmail (toLowerCase "A@b.com"))])
             (DataSuccess "User was retrieved successfully" (Sqlite.record r))
  /\ ("A@b.com" <> Sqlite.row_email r ->
      forall w' msg,
        AuthService.getUserByEmail "A@b.com" w <> Returned w' (DataSuccess msg (Sqlite.record r))).
Proof.
  apply (getUserByEmail_exact_match
           (Scenario.world [Scenario.user_row 1 "a@b.com" "salt$pw"] [])
           (Scenario.user_row 1 "a@b.com" "salt$pw") "A@b.com").
  - unfold Sqlite.unique_emails. simpl. constructor; [intros [] | constructor].
  - simpl. left. reflexivity.
  - reflexivity.
  - reflexivity.
Defined.


(* ===================================================================== *)
(** * createUser and the signup action *)
(* ===================================================================== *)

Section Signup.
Import Sqlite SqliteFacts.
Context {argon2 : Argon2}.

Lemma find_existsb_true {A} (p : A -> bool) (l : list A) :
  existsb p l = true -> exists x, find p l = Some x.
Proof.
  induction l as [| a l IH]; simpl; [discriminate |].
  destruct (p a); simpl; eauto.
Qed.

Lemma createUser_sqlite (w : World Tables) (user : BaseUserRecord.t) :
  AuthService.createUser user w =
  if existsb (has_email (BaseUserRecord.email user)) (users (db w)) then
    Returned (after w (db w) [LogGet (SelectUserByEmail (BaseUserRecord.email user))])
             {| success := false; message := "Email already in use" |}
  else
    Returned (after w (with_user (db w) user)
                    [LogGet (SelectUserByEmail (BaseUserRecord.email user));
                     LogRun (insert_of user)])
             {| success := true; message := "User was created successfully" |}.
Proof.
  unfold AuthService.createUser. unfold bind at 1.
  rewrite getUserByEmail_run. cbn [get_user sqlite]. unfold sqlite_get_user.
  destruct (existsb (has_email (BaseUserRecord.email user)) (users (db w))) eqn:Hex.
  - destruct (find_existsb_true _ _ Hex) as [r Hr]. rewrite Hr. reflexivity.
  - rewrite (find_existsb_false _ _ Hex). simpl.
    unfold bind.
    rewrite (prepare_run_ran _ (insert_of user) (with_user (db w) user) 1).
    + unfold ret, after. simpl. rewrite <- app_assoc. reflexivity.
    + simpl. rewrite Hex. reflexivity.
Qed.

Lemma signup_sqlite (w : World Tables) (ev : RequestEvent) :
  actions.signup ev w =
  if existsb (has_email (toLowerCase (form_email (formData ev)))) (users (db w)) then
    Returned (after w (db w)
                    [LogGet (SelectUserByEmail (toLowerCase (form_email (formData ev))))])
             (ActionFailure 422 "Email already in use")
  else
    Returned (after w (with_user (db w) (newUserData_of ev))
                    [LogGet (SelectUserByEmail (toLowerCase (form_email (formData ev))));
                     LogRun (insert_of (newUserData_of ev))])
             Void.
Proof.
  unfold actions.signup. unfold bind.
  fold (newUserData_of ev). rewrite createUser_sqlite. simpl.
  destruct (existsb _ _); reflexivity.
Qed.

Lemma with_user_has_email (t : Tables) (user : BaseUserRecord.t) :
  existsb (has_email (BaseUserRecord.email user)) (users (with_user t user)) = true.
Proof.
  unfold with_user. simpl. rewrite existsb_app. simpl.
  unfold has_email at 2, row_email. simpl. rewrite String.eqb_refl.
  now rewrite orb_true_r.
Qed.
End Signup.

(** C3, as the specification states it, fails: with a user stored as "a@b.com",
    [createUser] of a record whose email is "A@b.com" (a case-insensitive
    match) succeeds and stores a second row. *)
Lemma createUser_accepts_other_casing :
  let w := Scenario.world [Scenario.user_row 1 "a@b.com" "salt$pw"] [] in
  let user := {| BaseUserRecord.firstName := "Ada";
                 BaseUserRecord.lastName := "Lovelace";
                 BaseUserRecord.email := "A@b.com";
                 BaseUserRecord.hashedPassword := "salt$pw" |} in
  toLowerCase (BaseUserRecord.email user) = toLowerCase "a@b.com" /\
  exists w',
    AuthService.createUser user w =
      Returned w' {| success := true; message := "User was created successfully" |} /\
    map Sqlite.row_email (Sqlite.users (db w')) = ["a@b.com"; "A@b.com"].
Proof.
  split; [reflexivity |]. eexists. split; reflexivity.
Qed.

(** C3, amended: [createUser] fails with 'Email already in use', storing
    nothing, if a row with exactly the record's email exists, and otherwise
    stores exactly one new row and returns success.  The signup action
    lower-cases the email first: a signup with an email whose lower-case
    form is not stored succeeds, and a following signup with the same email
    in any casing fails with that message and stores nothing. *)
Theorem createUser_duplicate_exact_email :
  forall (A : Argon2) (w : World Sqlite.Tables) (user : BaseUserRecord.t),
    ((exists r, In r (Sqlite.users (db w)) /\
                Sqlite.row_email r = BaseUserRecord.email user) ->
     exists w',
       AuthService.createUser user w =
         Returned w' {| success := false; message := "Email already in use" |} /\
       db w' = db w)
    /\
    ((forall r, In r (Sqlite.users (db w)) ->
                Sqlite.row_email r <> BaseUserRecord.email user) ->
     exists w',
       AuthService.createUser user w =
         Returned w' {| success := true; message := "User was created successfully" |} /\
       db w' = with_user (db w) user /\
       length (Sqlite.users (db w')) = S (length (Sqlite.users (db w))))
    /\
    (forall ev ev' : RequestEvent,
       (forall r, In r (Sqlite.users (db w)) ->
                  Sqlite.row_email r <> toLowerCase (form_email (formData ev))) ->
       toLowerCase (form_email (formData ev')) = toLowerCase (form_email (formData ev)) ->
       exists w1 w2,
         actions.signup ev w = Returned w1 Void /\
         db w1 = with_user (db w) (newUserData_of ev) /\
         actions.signup ev' w1 = Returned w2 (ActionFailure 422 "Email already in use") /\
         db w2 = db w1).
Proof.
  intros A w user. split; [| split].
  - intros Hex. apply SqliteFacts.existsb_has_email_true in Hex.
    rewrite createUser_sqlite, Hex. eexists. split; reflexivity.
  - intros Hfresh. apply SqliteFacts.existsb_has_email_false in Hfresh.
    rewrite createUser_sqlite, Hfresh. eexists. split; [reflexivity |]. split.
    + reflexivity.
    + simpl. rewrite length_app. simpl. lia.
  - intros ev ev' Hfresh Hsame.
    apply SqliteFacts.existsb_has_email_false in Hfresh.
    rewrite signup_sqlite, Hfresh.
    eexists. eexists. split; [reflexivity |]. split; [reflexivity |].
    rewrite signup_sqlite. simpl db. rewrite Hsame.
    change (toLowerCase (form_email (formData ev)))
      with (BaseUserRecord.email (newUserData_of ev)).
    rewrite with_user_has_email. split; reflexivity.
Qed.

(** Two signups on an empty store with the README's email, the second in another casing. *)
Lemma createUser_duplicate_exact_email_witness :
  let w := Scenario.world [] [] in
  let ev := Scenario.request "1234@gmail.com" "1234" (fun _ => O) in
  let ev' := Scenario.request "1234@GMail.COM" "abcd" (fun _ => O) in
  exists w1 w2,
    actions.signup (argon2 := Scenario.plain_argon2) ev w = Returned w1 Void /\
    db w1 = with_user (db w) (newUserData_of (argon2 := Scenario.plain_argon2) ev) /\
    actions.signup (argon2 := Scenario.plain_argon2) ev' w1 =
      Returned w2 (ActionFailure 422 "Email already in use") /\
    db w2 = db w1.
Proof.
  refine (proj2 (proj2 (createUser_duplicate_exact_email
            Scenario.plain_argon2 (Scenario.world [] [])
            {| BaseUserRecord.firstName := "Ada"; BaseUserRecord.lastName := "Lovelace";
               BaseUserRecord.email := "ada@b.com"; BaseUserRecord.hashedPassword := "salt$pw" |}))
            (Scenario.request "1234@gmail.com" "1234" (fun _ => O))
            (Scenario.request "1234@GMail.COM" "abcd" (fun _ => O)) _ _).
  - intros r [].
  - reflexivity.
Defined.


(** What the signup action stores is in lower case. *)
Lemma signup_stores_lower_case (argon2 : Argon2) (ev : RequestEvent) :
  toLowerCase (BaseUserRecord.email (newUserData_of ev)) =
  BaseUserRecord.email (newUserData_of ev).
Proof. simpl. apply toLowerCase_idempotent. Qed.

(** C9: whatever a signup request carries and however it ends, the action
    returns with the session table and the cookies of the response as they
    were: it creates no session and sets no cookie. *)
Theorem signup_creates_no_session :
  forall (A : Argon2) (w : World Sqlite.Tables) (ev : RequestEvent),
    exists w' res,
      actions.signup ev w = Returned w' res /\
      Sqlite.cookie_table (db w') = Sqlite.cookie_table (db w) /\
      jar w' = jar w.
Proof.
  intros A w ev. rewrite signup_sqlite.
  destruct (existsb _ _); eexists; eexists; split; try reflexivity; split; reflexivity.
Qed.

(* ===================================================================== *)
(** * The login action *)
(* ===================================================================== *)

Section Login.
Context {DB : Type} {database : Database DB} {argon2 : Argon2}.

Lemma login_unknown_email (w : World DB) (ev : RequestEvent) :
  get_user (db w) (login_email ev) = None ->
  actions.login ev w = Returned (looked_up w ev) (ActionFailure 422 GENERIC_FAILURE).
Proof.
  intros Hget. unfold actions.login. unfold bind at 1.
  rewrite getUserByEmail_run. fold (login_email ev). rewrite Hget. reflexivity.
Qed.

Lemma login_wrong_password (w : World DB) (ev : RequestEvent) (u : UserRecord.t) :
  get_user (db w) (login_email ev) = Some u ->
  argon2_verify (UserRecord.hashedPassword u) (form_password (formData ev)) = false ->
  actions.login ev w = Returned (looked_up w ev) (ActionFailure 422 GENERIC_FAILURE).
Proof.
  intros Hget Hver. unfold actions.login. unfold bind at 1.
  rewrite getUserByEmail_run. fold (login_email ev). rewrite Hget.
  unfold bind. rewrite Hver. reflexivity.
Qed.

(** With valid credentials the action goes through [createCookie]; if that
    call returns, whatever it returns, the cookie is set and [redirect]
    throws; if it throws, so does the action. *)
Lemma login_valid_returned (w w2 : World DB) (ev : RequestEvent) (u : UserRecord.t)
      (r : DatabaseResponse) :
  get_user (db w) (login_email ev) = Some u ->
  argon2_verify (UserRecord.hashedPassword u) (form_password (formData ev)) = true ->
  AuthService.createCookie (actions.cookieID_of ev) (UserRecord.id u) (looked_up w ev) =
    Returned w2 r ->
  actions.login ev w = Thrown (with_cookie w2 (session_cookie ev)) (Redirect 302 "/home").
Proof.
  intros Hget Hver Hcreate. unfold actions.login. unfold bind at 1.
  rewrite getUserByEmail_run. fold (login_email ev). rewrite Hget.
  unfold bind at 1. rewrite Hver.
  unfold bind at 1. fold (actions.cookieID_of ev). fold (looked_up w ev).
  rewrite Hcreate. reflexivity.
Qed.

Lemma login_valid_thrown (w w2 : World DB) (ev : RequestEvent) (u : UserRecord.t)
      (e : Exn) :
  get_user (db w) (login_email ev) = Some u ->
  argon2_verify (UserRecord.hashedPassword u) (form_password (formData ev)) = true ->
  AuthService.createCookie (actions.cookieID_of ev) (UserRecord.id u) (looked_up w ev) =
    Thrown w2 e ->
  actions.login ev w = Thrown w2 e.
Proof.
  intros Hget Hver Hcreate. unfold actions.login. unfold bind at 1.
  rewrite getUserByEmail_run. fold (login_email ev). rewrite Hget.
  unfold bind at 1. rewrite Hver.
  unfold bind at 1. fold (actions.cookieID_of ev). fold (looked_up w ev).
  rewrite Hcreate. reflexivity.
Qed.
End Login.

(** C2: a login with an email no user has and a login with the email of a
    user and a password that does not verify end alike: the action returns
    [fail(422, { error: 'Incorrect username or password' })] in both, with
    the database and the cookies of the response untouched, so the two
    responses are equal. *)
Theorem login_failures_indistinguishable :
  forall (DB : Type) (database : Database DB) (argon2 : Argon2)
         (w : World DB) (ev1 ev2 : RequestEvent) (u : UserRecord.t),
    get_user (db w) (login_email ev1) = None ->
    get_user (db w) (login_email ev2) = Some u ->
    argon2_verify (UserRecord.hashedPassword u) (form_password (formData ev2)) = false ->
    action_result (actions.login ev1 w) = ResultFailure 422 "Incorrect username or password" /\
    action_result (actions.login ev2 w) = action_result (actions.login ev1 w) /\
    jar (world_of (actions.login ev1 w)) = jar w /\
    jar (world_of (actions.login ev2 w)) = jar w /\
    db (world_of (actions.login ev1 w)) = db w /\
    db (world_of (actions.login ev2 w)) = db w.
Proof.
  intros DB database argon2 w ev1 ev2 u Hnone Hsome Hver.
  rewrite (login_unknown_email w ev1 Hnone).
  rewrite (login_wrong_password w ev2 u Hsome Hver).
  repeat split.
Qed.

(** On the README's default user: an unknown email against a wrong password. *)
Lemma login_failures_indistinguishable_witness :
  let w := Scenario.world [Scenario.default_user] [] in
  let ev1 := Scenario.request "nobody@gmail.com" "1234" (fun _ => O) in
  let ev2 := Scenario.request "1234@gmail.com" "4321" (fun _ => O) in
  action_result (actions.login (argon2 := Scenario.plain_argon2) ev1 w) =
    ResultFailure 422 "Incorrect username or password" /\
  action_result (actions.login (argon2 := Scenario.plain_argon2) ev2 w) =
    action_result (actions.login (argon2 := Scenario.plain_argon2) ev1 w) /\
  jar (world_of (actions.login (argon2 := Scenario.plain_argon2) ev1 w)) = jar w /\
  jar (world_of (actions.login (argon2 := Scenario.plain_argon2) ev2 w)) = jar w /\
  db (world_of (actions.login (argon2 := Scenario.plain_argon2) ev1 w)) = db w /\
  db (world_of (actions.login (argon2 := Scenario.plain_argon2) ev2 w)) = db w.
Proof.
  apply (login_failures_indistinguishable
           Sqlite.Tables Sqlite.sqlite Scenario.plain_argon2
           (Scenario.world [Scenario.default_user] [])
           (Scenario.request "nobody@gmail.com" "1234" (fun _ => O))
           (Scenario.request "1234@gmail.com" "4321" (fun _ => O))
           (Sqlite.record Scenario.default_user)).
  - reflexivity.
  - reflexivity.
  - reflexivity.
Defined.

(* ===================================================================== *)
(** * Session store *)
(* ===================================================================== *)

(** C4: a call of [createCookie] at time [clock w] that returns has stored
    the session with [expireTime = clock w + 1 hour], an expiry strictly
    after the creation time and at most the TTL of 3600000 ms past it; and
    the call returns, with success, whenever the id is not yet a session
    id and the user id is that of a stored user. *)
Theorem createCookie_expires_after_one_hour :
  forall (w : World Sqlite.Tables) (cookieID : string) (userID : Z),
    (forall w' r,
       AuthService.createCookie cookieID userID w = Returned w' r ->
       success r = true /\
       exists c,
         get_cookie (db w') cookieID = Some c /\
         cookie.userID c = userID /\
         cookie.expireTime c = clock w + AuthService.CREATE_TTL /\
         clock w < cookie.expireTime c <= clock w + 3600000) /\
    (~ In cookieID (map cookie.id (Sqlite.cookie_table (db w))) ->
     (exists row, In row (Sqlite.users (db w)) /\
                  UserRecord.id (Sqlite.record row) = userID) ->
     exists w',
       AuthService.createCookie cookieID userID w =
         Returned w' {| success := true; message := "Successful cookie creation" |}).
Proof.
  intros w cookieID userID.
  assert (Hfresh :
    existsb (Sqlite.has_id cookieID) (Sqlite.cookie_table (db w)) = false ->
    existsb (Sqlite.has_user_id userID) (Sqlite.users (db w)) = true ->
    run (db w) (InsertCookie cookieID userID (clock w + 60 * 60 * 1000)) =
    Ran {| Sqlite.users := Sqlite.users (db w);
           Sqlite.cookie_table := Sqlite.cookie_table (db w) ++
             [{| cookie.id := cookieID; cookie.userID := userID;
                 cookie.expireTime := clock w + 60 * 60 * 1000 |}] |} 1).
  { intros Hex Huser. simpl. rewrite Hex, Huser. reflexivity. }
  split.
  - intros w' r Hcall.
    destruct (existsb (Sqlite.has_id cookieID) (Sqlite.cookie_table (db w))) eqn:Hex.
    + rewrite (createCookie_failed w cookieID userID "UNIQUE constraint failed: cookie.id")
        in Hcall; [discriminate |].
      simpl. rewrite Hex. reflexivity.
    + destruct (existsb (Sqlite.has_user_id userID) (Sqlite.users (db w))) eqn:Huser.
      * rewrite (createCookie_ran _ _ _ _ _ (Hfresh eq_refl eq_refl)) in Hcall.
        inversion Hcall; subst; clear Hcall. split; [reflexivity |].
        exists {| cookie.id := cookieID; cookie.userID := userID;
                  cookie.expireTime := clock w + 60 * 60 * 1000 |}.
        split; [| split; [reflexivity | split; [reflexivity | simpl; lia]]].
        simpl. unfold Sqlite.sqlite_get_cookie. simpl.
        apply SqliteFacts.find_app_fresh; [exact Hex |].
        unfold Sqlite.has_id. simpl. apply String.eqb_refl.
      * rewrite (createCookie_failed w cookieID userID "FOREIGN KEY constraint failed")
          in Hcall; [discriminate |].
        simpl. rewrite Hex, Huser. reflexivity.
  - intros Hnotin Hstored. apply SqliteFacts.existsb_has_id_false in Hnotin.
    apply SqliteFacts.existsb_has_user_id_true in Hstored.
    rewrite (createCookie_ran _ _ _ _ _ (Hfresh Hnotin Hstored)). eexists. reflexivity.
Qed.

(** A first session on a store without sessions. *)
Lemma createCookie_expires_after_one_hour_witness :
  let w := Scenario.world [Scenario.default_user] [] in
  exists w' c,
    AuthService.createCookie "QWERTYUIOPASDFGHJKLZ" 1 w =
      Returned w' {| success := true; message := "Successful cookie creation" |} /\
    get_cookie (db w') "QWERTYUIOPASDFGHJKLZ" = Some c /\
    cookie.expireTime c = 1700000000000 + 3600000.
Proof.
  pose proof (createCookie_expires_after_one_hour
                (Scenario.world [Scenario.default_user] []) "QWERTYUIOPASDFGHJKLZ" 1)
    as [Hstored Hreturns].
  destruct Hreturns as [w' Hcall].
  - simpl. intros [].
  - exists Scenario.default_user. split; [simpl; now left | reflexivity].
  - destruct (Hstored _ _ Hcall) as [_ [c [Hget [_ [Hexp _]]]]].
    exists w', c. split; [exact Hcall |]. split; [exact Hget | exact Hexp].
Defined.

(** C5: for a stored session id, [updateCookie] returns success and leaves
    the session with [expireTime = clock w + 30 minutes], its owner as
    before; the refresh TTL of 1800000 ms is not the creation TTL of
    3600000 ms. *)
Theorem updateCookie_expires_after_thirty_minutes :
  forall (w : World Sqlite.Tables) (c : cookie.t),
    Sqlite.unique_ids (db w) ->
    In c (Sqlite.cookie_table (db w)) ->
    (exists w',
       AuthService.updateCookie (cookie.id c) w =
         Returned w' {| success := true; message := "Updated cookie successfully" |} /\
       get_cookie (db w') (cookie.id c) =
         Some {| cookie.id := cookie.id c; cookie.userID := cookie.userID c;
                 cookie.expireTime := clock w + AuthService.REFRESH_TTL |}) /\
    AuthService.REFRESH_TTL = 30 * 60 * 1000 /\
    AuthService.CREATE_TTL = 60 * 60 * 1000 /\
    AuthService.REFRESH_TTL <> AuthService.CREATE_TTL.
Proof.
  intros w c Hnd Hin. split; [| split; [| split]].
  - erewrite updateCookie_ran by (simpl; reflexivity).
    rewrite (SqliteFacts.count_has_id_unique _ _ Hnd Hin).
    eexists. split; [reflexivity |].
    simpl. unfold Sqlite.sqlite_get_cookie. simpl.
    rewrite SqliteFacts.find_update.
    rewrite (SqliteFacts.find_has_id_unique _ _ Hnd Hin). simpl.
    unfold Sqlite.has_id. rewrite String.eqb_refl. reflexivity.
  - reflexivity.
  - reflexivity.
  - unfold AuthService.REFRESH_TTL, AuthService.CREATE_TTL. lia.
Qed.

(** Refreshing the only stored session. *)
Lemma updateCookie_expires_after_thirty_minutes_witness :
  let c := {| cookie.id := "QWERTYUIOPASDFGHJKLZ"; cookie.userID := 1;
              cookie.expireTime := 1700000000000 + 3600000 |} in
  let w := Scenario.world [Scenario.default_user] [c] in
  exists w',
    AuthService.updateCookie "QWERTYUIOPASDFGHJKLZ" w =
      Returned w' {| success := true; message := "Updated cookie successfully" |} /\
    get_cookie (db w') "QWERTYUIOPASDFGHJKLZ" =
      Some {| cookie.id := "QWERTYUIOPASDFGHJKLZ"; cookie.userID := 1;
              cookie.expireTime := 1700000000000 + 1800000 |}.
Proof.
  refine (proj1 (updateCookie_expires_after_thirty_minutes
            (Scenario.world [Scenario.default_user]
               [{| cookie.id := "QWERTYUIOPASDFGHJKLZ"; cookie.userID := 1;
                   cookie.expireTime := 1700000000000 + 3600000 |}])
            {| cookie.id := "QWERTYUIOPASDFGHJKLZ"; cookie.userID := 1;
               cookie.expireTime := 1700000000000 + 3600000 |} _ _)).
  - unfold Sqlite.unique_ids. simpl. constructor; [intros [] | constructor].
  - simpl. left. reflexivity.
Defined.

(** Under the documented schema the count is 1 for a stored id and 0 for
    any other: deleting a stored session succeeds and the session is gone,
    deleting under an id that is not stored reports the failure and leaves
    the table as it was. *)
Lemma removeCookie_stored (w : World Sqlite.Tables) (c : cookie.t) :
  Sqlite.unique_ids (db w) ->
  In c (Sqlite.cookie_table (db w)) ->
  exists w',
    AuthService.removeCookie (cookie.id c) w =
      Returned w' {| success := true; message := "Successful cookie deletion" |} /\
    get_cookie (db w') (cookie.id c) = None /\
    (forall j, j <> cookie.id c -> get_cookie (db w') j = get_cookie (db w) j).
Proof.
  intros Hnd Hin. erewrite removeCookie_ran by (simpl; reflexivity).
  rewrite (SqliteFacts.count_has_id_unique _ _ Hnd Hin).
  eexists. split; [reflexivity |]. simpl. unfold Sqlite.sqlite_get_cookie. simpl. split.
  - apply SqliteFacts.find_delete_same.
  - intros j Hj. apply SqliteFacts.find_delete_other. congruence.
Qed.

Lemma removeCookie_absent (w : World Sqlite.Tables) (id : string) :
  ~ In id (map cookie.id (Sqlite.cookie_table (db w))) ->
  exists w',
    AuthService.removeCookie id w =
      Returned w' {| success := false; message := "Failed cookie deletion" |} /\
    Sqlite.cookie_table (db w') = Sqlite.cookie_table (db w).
Proof.
  intros Hnotin. erewrite removeCookie_ran by (simpl; reflexivity).
  rewrite (SqliteFacts.count_has_id_fresh _ _ Hnotin).
  eexists. split; [reflexivity |]. simpl.
  induction (Sqlite.cookie_table (db w)) as [| a cs IH]; simpl; [reflexivity |].
  simpl in Hnotin. unfold Sqlite.has_id at 1.
  destruct (String.eqb_spec (cookie.id a) id) as [Heq | Hne]; simpl.
  - exfalso. apply Hnotin. now left.
  - f_equal. apply IH. intros Hin. apply Hnotin. now right.
Qed.

(** C7, as the specification states it, fails: with valid credentials and a drawn
    token that is already a session id, [Insert into cookie] throws, and the
    action ends in an error with no session created, no cookie set and no
    redirect. *)
Lemma login_token_collision :
  let taken := {| cookie.id := "AAAAAAAAAAAAAAAAAAAA"; cookie.userID := 1;
                  cookie.expireTime := 1700000000000 + 3600000 |} in
  let w := Scenario.world [Scenario.default_user] [taken] in
  let ev := Scenario.request "1234@gmail.com" "1234" (fun _ => O) in
  get_user (db w) (login_email ev) = Some (Sqlite.record Scenario.default_user) /\
  argon2_verify (Argon2 := Scenario.plain_argon2)
    (UserRecord.hashedPassword (Sqlite.record Scenario.default_user))
    (form_password (formData ev)) = true /\
  exists w',
    actions.login (argon2 := Scenario.plain_argon2) ev w =
      Thrown w' (SqliteError "UNIQUE constraint failed: cookie.id") /\
    db w' = db w /\ jar w' = [] /\
    action_result (actions.login (argon2 := Scenario.plain_argon2) ev w) = ResultError.
Proof.
  split; [reflexivity |]. split; [reflexivity |].
  eexists. split; [reflexivity |]. repeat split.
Qed.

(** C7, amended: for a login whose email resolves to a user and whose
    password verifies, and whose drawn token is not yet a session id, the
    action stores a new session of that user under the token, sets exactly
    one cookie (name [sessionID], value the token, path [/]) and ends in the
    redirect to [/home]. *)
Theorem login_creates_session_and_cookie :
  forall (argon2 : Argon2) (w : World Sqlite.Tables) (ev : RequestEvent)
         (u : UserRecord.t),
    get_user (db w) (login_email ev) = Some u ->
    argon2_verify (UserRecord.hashedPassword u) (form_password (formData ev)) = true ->
    ~ In (actions.cookieID_of ev) (map cookie.id (Sqlite.cookie_table (db w))) ->
    exists w',
      actions.login ev w = Thrown w' (Redirect 302 "/home") /\
      action_result (actions.login ev w) = ResultRedirect 302 "/home" /\
      jar w' = {| name := "sessionID"; value := actions.cookieID_of ev; path := "/" |}
               :: jar w /\
      Sqlite.cookie_table (db w') =
        Sqlite.cookie_table (db w) ++
        [{| cookie.id := actions.cookieID_of ev; cookie.userID := UserRecord.id u;
            cookie.expireTime := clock w + AuthService.CREATE_TTL |}] /\
      get_cookie (db w') (actions.cookieID_of ev) =
        Some {| cookie.id := actions.cookieID_of ev; cookie.userID := UserRecord.id u;
                cookie.expireTime := clock w + AuthService.CREATE_TTL |}.
Proof.
  intros argon2 w ev u Hget Hver Hfresh.
  apply SqliteFacts.existsb_has_id_false in Hfresh.
  assert (Hcreate :
    AuthService.createCookie (actions.cookieID_of ev) (UserRecord.id u) (looked_up w ev) =
    Returned
      (after (looked_up w ev)
         {| Sqlite.users := Sqlite.users (db w);
            Sqlite.cookie_table := Sqlite.cookie_table (db w) ++
              [{| cookie.id := actions.cookieID_of ev; cookie.userID := UserRecord.id u;
                  cookie.expireTime := clock w + 60 * 60 * 1000 |}] |}
         [LogRun (InsertCookie (actions.cookieID_of ev) (UserRecord.id u)
                               (clock w + 60 * 60 * 1000))])
      {| success := true; message := "Successful cookie creation" |}).
  { rewrite (createCookie_ran (looked_up w ev) _ _
               {| Sqlite.users := Sqlite.users (db w);
                  Sqlite.cookie_table := Sqlite.cookie_table (db w) ++
                    [{| cookie.id := actions.cookieID_of ev; cookie.userID := UserRecord.id u;
                        cookie.expireTime := clock w + 60 * 60 * 1000 |}] |} 1).
    - reflexivity.
    - simpl. rewrite Hfresh, (SqliteFacts.found_user_has_id (db w) _ u Hget).
      reflexivity. }
  rewrite (login_valid_returned w _ ev u _ Hget Hver Hcreate).
  eexists. split; [reflexivity |]. split; [reflexivity |].
  split; [reflexivity |]. split; [reflexivity |].
  simpl. unfold Sqlite.sqlite_get_cookie. simpl.
  apply SqliteFacts.find_app_fresh; [exact Hfresh |].
  unfold Sqlite.has_id. simpl. apply String.eqb_refl.
Qed.

(** The README's default user logs in, the email typed in another casing. *)
Lemma login_creates_session_and_cookie_witness :
  let w := Scenario.world [Scenario.default_user] [] in
  let ev := Scenario.request "1234@GMAIL.com" "1234" (fun i => (7 * i + 3)%nat) in
  exists w',
    actions.login (argon2 := Scenario.plain_argon2) ev w = Thrown w' (Redirect 302 "/home") /\
    action_result (actions.login (argon2 := Scenario.plain_argon2) ev w) =
      ResultRedirect 302 "/home" /\
    jar w' = {| name := "sessionID"; value := actions.cookieID_of ev; path := "/" |}
             :: jar w /\
    Sqlite.cookie_table (db w') =
      Sqlite.cookie_table (db w) ++
      [{| cookie.id := actions.cookieID_of ev; cookie.userID := 1;
          cookie.expireTime := clock w + AuthService.CREATE_TTL |}] /\
    get_cookie (db w') (actions.cookieID_of ev) =
      Some {| cookie.id := actions.cookieID_of ev; cookie.userID := 1;
              cookie.expireTime := clock w + AuthService.CREATE_TTL |}.
Proof.
  apply (login_creates_session_and_cookie Scenario.plain_argon2
           (Scenario.world [Scenario.default_user] [])
           (Scenario.request "1234@GMAIL.com" "1234" (fun i => (7 * i + 3)%nat))
           (Sqlite.record Scenario.default_user)).
  - reflexivity.
  - reflexivity.
  - simpl. intros [].
Defined.

(* ===================================================================== *)
(** * Session ids *)
(* ===================================================================== *)

Section SessionIds.
Local Open Scope nat_scope.

Lemma append_empty_r (s : string) : (s ++ EmptyString)%string = s.
Proof. induction s as [| c s IH]; simpl; [reflexivity | now rewrite IH]. Qed.

Lemma append_assoc (s1 s2 s3 : string) :
  ((s1 ++ s2) ++ s3)%string = (s1 ++ (s2 ++ s3))%string.
Proof. induction s1 as [| c s1 IH]; simpl; [reflexivity | now rewrite IH]. Qed.

Lemma loop_drawn (rand : RandomReader) (alphabet : string) (n i : nat) (result : string) :
  generateRandomString_loop rand alphabet n i result =
  (result ++ drawn rand alphabet n i)%string.
Proof.
  revert i result. induction n as [| n IH]; intros i result; simpl.
  - now rewrite append_empty_r.
  - rewrite IH. apply append_assoc.
Qed.

Lemma generateRandomString_drawn (rand : RandomReader) (alphabet : string) (n : nat) :
  generateRandomString rand alphabet n = drawn rand alphabet n 0.
Proof. unfold generateRandomString. now rewrite loop_drawn. Qed.

Lemma get_in_range (alphabet : string) (k : nat) :
  k < String.length alphabet ->
  exists c, String.get k alphabet = Some c /\ In c (list_ascii_of_string alphabet).
Proof.
  revert k. induction alphabet as [| x rest IH]; simpl; intros k Hk; [lia |].
  destruct k as [| k].
  - exists x. split; [reflexivity | now left].
  - destruct (IH k) as [c [Hget Hin]]; [lia |].
    exists c. split; [exact Hget | now right].
Qed.

Lemma char_at_drawn (rand : RandomReader) (alphabet : string) (i : nat) :
  alphabet <> EmptyString ->
  exists c,
    char_at alphabet (generateRandomInteger rand (String.length alphabet) i) =
      String c EmptyString /\
    In c (list_ascii_of_string alphabet).
Proof.
  intros Hne. unfold char_at, generateRandomInteger.
  destruct (get_in_range alphabet (rand i mod String.length alphabet)) as [c [Hget Hin]].
  - apply Nat.mod_upper_bound. destruct alphabet; [congruence | simpl; lia].
  - exists c. rewrite Hget. split; [reflexivity | exact Hin].
Qed.

Lemma drawn_length (rand : RandomReader) (alphabet : string) (n i : nat) :
  alphabet <> EmptyString ->
  String.length (drawn rand alphabet n i) = n.
Proof.
  intros Hne. revert i. induction n as [| n IH]; intros i; simpl; [reflexivity |].
  destruct (char_at_drawn rand alphabet i Hne) as [c [Hc _]].
  rewrite Hc. simpl. now rewrite IH.
Qed.

Lemma drawn_chars (rand : RandomReader) (alphabet : string) (n i : nat) (c : ascii) :
  alphabet <> EmptyString ->
  In c (list_ascii_of_string (drawn rand alphabet n i)) -> In c (list_ascii_of_string alphabet).
Proof.
  intros Hne. revert i. induction n as [| n IH]; intros i; simpl; [intros [] |].
  destruct (char_at_drawn rand alphabet i Hne) as [x [Hx Hin]].
  rewrite Hx. simpl. intros [<- | Hrest]; [exact Hin | eapply IH; eassumption].
Qed.

Lemma position_get (c : ascii) (alphabet : string) :
  In c (list_ascii_of_string alphabet) ->
  position c alphabet < String.length alphabet /\
  String.get (position c alphabet) alphabet = Some c.
Proof.
  induction alphabet as [| x rest IH]; simpl; intros Hin; [contradiction |].
  destruct (Ascii.eqb_spec x c) as [-> | Hne].
  - split; [lia | reflexivity].
  - destruct Hin as [Heq | Hin]; [congruence |].
    destruct (IH Hin) as [Hlt Hget]. split; [lia | exact Hget].
Qed.

(** Every string over the alphabet is what the loop draws under some reader. *)
Lemma drawn_spells (alphabet s : string) (rand : RandomReader) (i : nat) :
  (forall k c, String.get k s = Some c -> rand (i + k) = position c alphabet) ->
  (forall c, In c (list_ascii_of_string s) -> In c (list_ascii_of_string alphabet)) ->
  drawn rand alphabet (String.length s) i = s.
Proof.
  revert i. induction s as [| x s IH]; intros i Hrand Hsub; simpl; [reflexivity |].
  destruct (position_get x alphabet) as [Hlt Hget]; [apply Hsub; now left |].
  unfold char_at, generateRandomInteger.
  assert (Hi : rand i = position x alphabet).
  { rewrite <- (Nat.add_0_r i). apply Hrand. reflexivity. }
  rewrite Hi, (Nat.mod_small _ _ Hlt), Hget. simpl. f_equal.
  apply IH.
  - intros k c Hk. rewrite <- Hrand with (k := S k) (c := c); [f_equal; lia | exact Hk].
  - intros c Hc. apply Hsub. now right.
Qed.
End SessionIds.

(** The shape of the id drawn for a request, and the ids of that shape. *)
Lemma cookieID_shape (ev : RequestEvent) :
  String.length (actions.cookieID_of ev) = 20%nat /\
  (forall c, In c (list_ascii_of_string (actions.cookieID_of ev)) ->
             In c (list_ascii_of_string actions.ALPHABET)) /\
  String.length actions.ALPHABET = 26%nat /\
  NoDup (list_ascii_of_string actions.ALPHABET) /\
  2 ^ 94 <= Z.of_nat (String.length actions.ALPHABET)
            ^ Z.of_nat (String.length (actions.cookieID_of ev)).
Proof.
  assert (Hne : actions.ALPHABET <> EmptyString) by discriminate.
  assert (Hlen : String.length (actions.cookieID_of ev) = 20%nat).
  { unfold actions.cookieID_of. rewrite generateRandomString_drawn.
    now apply drawn_length. }
  split; [exact Hlen |]. split; [| split; [| split]].
  - intros c. unfold actions.cookieID_of. rewrite generateRandomString_drawn.
    now apply drawn_chars.
  - reflexivity.
  - simpl. repeat (constructor; [simpl; intuition discriminate |]). constructor.
  - rewrite Hlen. apply Z.leb_le. reflexivity.
Qed.

Lemma cookieID_spelled (ev : RequestEvent) (s : string) :
  String.length s = 20%nat ->
  (forall c, In c (list_ascii_of_string s) ->
             In c (list_ascii_of_string actions.ALPHABET)) ->
  actions.cookieID_of
    {| formData := formData ev; random := reader_of s actions.ALPHABET;
       salt := salt ev |} = s.
Proof.
  intros Hs Hsub. unfold actions.cookieID_of. simpl random.
  rewrite generateRandomString_drawn, <- Hs.
  apply drawn_spells; [| exact Hsub].
  intros k c Hk. unfold reader_of. simpl. now rewrite Hk.
Qed.

(** What a login with valid credentials does with the id it draws, on any
    handle: it runs [Insert into cookie] under that id for the user found,
    and if it ends in the redirect, the cookie it has set carries that
    id. *)
Lemma login_uses_drawn_id {DB : Type} {database : Database DB} {argon2 : Argon2}
      (w : World DB) (ev : RequestEvent) (u : UserRecord.t) :
  get_user (db w) (login_email ev) = Some u ->
  argon2_verify (UserRecord.hashedPassword u) (form_password (formData ev)) = true ->
  (exists lines,
     console (world_of (actions.login ev w)) = console w ++ lines /\
     In (InsertCookie (actions.cookieID_of ev) (UserRecord.id u)
                      (clock w + 60 * 60 * 1000)) (runs lines)) /\
  (forall w' status location,
     actions.login ev w = Thrown w' (Redirect status location) ->
     jar w' = {| name := "sessionID"; value := actions.cookieID_of ev; path := "/" |}
              :: jar w).
Proof.
  intros Hget Hver.
  destruct (run (db w) (InsertCookie (actions.cookieID_of ev) (UserRecord.id u)
                                     (clock w + 60 * 60 * 1000)))
    as [d n | msg] eqn:Hrun.
  - rewrite (login_valid_returned w _ ev u _ Hget Hver
               (createCookie_ran (looked_up w ev) _ _ d n Hrun)).
    split.
    + eexists. split.
      * simpl. rewrite <- app_assoc. reflexivity.
      * rewrite runs_app, runs_write_lines. simpl. now left.
    + intros w' status location Heq. inversion Heq; subst. reflexivity.
  - rewrite (login_valid_thrown w _ ev u _ Hget Hver
               (createCookie_failed (looked_up w ev) _ _ msg Hrun)).
    split.
    + eexists. split.
      * simpl. rewrite <- app_assoc. reflexivity.
      * simpl. now left.
    + intros w' status location Heq. discriminate.
Qed.

(** C6: a login with valid credentials draws one session id: the id under
    which it runs [Insert into cookie] for the user found, and the value of
    the [sessionID] cookie whenever it ends in the redirect.  That id has
    20 characters, each from the alphabet A-Z of 26 distinct symbols; every
    one of the 26^20 strings of that shape is the id the login draws under
    some reader, and 26^20 is at least 2^94. *)
Theorem login_session_id_has_94_bits :
  forall (DB : Type) (database : Database DB) (argon2 : Argon2)
         (w : World DB) (ev : RequestEvent) (u : UserRecord.t),
    get_user (db w) (login_email ev) = Some u ->
    argon2_verify (UserRecord.hashedPassword u) (form_password (formData ev)) = true ->
    (exists id lines,
       console (world_of (actions.login ev w)) = console w ++ lines /\
       In (InsertCookie id (UserRecord.id u) (clock w + AuthService.CREATE_TTL))
          (runs lines) /\
       (forall w' status location,
          actions.login ev w = Thrown w' (Redirect status location) ->
          jar w' = {| name := "sessionID"; value := id; path := "/" |} :: jar w) /\
       String.length id = 20%nat /\
       (forall c, In c (list_ascii_of_string id) ->
                  In c (list_ascii_of_string actions.ALPHABET)) /\
       2 ^ 94 <= Z.of_nat (String.length actions.ALPHABET)
                 ^ Z.of_nat (String.length id)) /\
    String.length actions.ALPHABET = 26%nat /\
    NoDup (list_ascii_of_string actions.ALPHABET) /\
    (forall s : string,
       String.length s = 20%nat ->
       (forall c, In c (list_ascii_of_string s) ->
                  In c (list_ascii_of_string actions.ALPHABET)) ->
       exists rand lines,
         console (world_of (actions.login
                    {| formData := formData ev; random := rand; salt := salt ev |} w)) =
           console w ++ lines /\
         In (InsertCookie s (UserRecord.id u) (clock w + AuthService.CREATE_TTL))
            (runs lines)).
Proof.
  intros DB database argon2 w ev u Hget Hver.
  destruct (cookieID_shape ev) as [Hlen [Hchars [Halpha [Hnodup Hbits]]]].
  split; [| split; [exact Halpha | split; [exact Hnodup |]]].
  - destruct (login_uses_drawn_id w ev u Hget Hver) as [[lines [Hconsole Hrun]] Hjar].
    exists (actions.cookieID_of ev), lines.
    split; [exact Hconsole |]. split; [exact Hrun |]. split; [exact Hjar |].
    split; [exact Hlen |]. split; [exact Hchars | exact Hbits].
  - intros s Hs Hsub.
    destruct (login_uses_drawn_id w
                {| formData := formData ev; random := reader_of s actions.ALPHABET;
                   salt := salt ev |} u Hget Hver) as [[lines [Hconsole Hrun]] _].
    rewrite (cookieID_spelled ev s Hs Hsub) in Hrun.
    exists (reader_of s actions.ALPHABET), lines. split; [exact Hconsole | exact Hrun].
Qed.

(** The README's default user logs in; the reader draws 7, 12, 17, ... *)
Lemma login_session_id_has_94_bits_witness :
  let w := Scenario.world [Scenario.default_user] [] in
  let ev := Scenario.request "1234@gmail.com" "1234" (fun i => (5 * i + 7)%nat) in
  exists id lines,
    console (world_of (actions.login (argon2 := Scenario.plain_argon2) ev w)) =
      console w ++ lines /\
    In (InsertCookie id 1 (clock w + AuthService.CREATE_TTL)) (runs lines) /\
    (forall w' status location,
       actions.login (argon2 := Scenario.plain_argon2) ev w =
         Thrown w' (Redirect status location) ->
       jar w' = {| name := "sessionID"; value := id; path := "/" |} :: jar w) /\
    String.length id = 20%nat /\
    (forall c, In c (list_ascii_of_string id) ->
               In c (list_ascii_of_string actions.ALPHABET)) /\
    2 ^ 94 <= Z.of_nat (String.length actions.ALPHABET) ^ Z.of_nat (String.length id).
Proof.
  apply (login_session_id_has_94_bits Sqlite.Tables Sqlite.sqlite Scenario.plain_argon2
           (Scenario.world [Scenario.default_user] [])
           (Scenario.request "1234@gmail.com" "1234" (fun i => (5 * i + 7)%nat))
           (Sqlite.record Scenario.default_user)).
  - reflexivity.
  - reflexivity.
Defined.


(* ===================================================================== *)
(** * The shared handle *)
(* ===================================================================== *)

(** X1: once a construction has returned a handle, the static field holds
    it, and every later construction, whatever the driver would do, returns
    that same handle and leaves the field and the console as they are: the
    file is opened at most once. *)
Theorem constructor_reuses_the_handle :
  forall (DB : Type) (driver driver' : BaseDatabaseService.Driver DB)
         (s s' : BaseDatabaseService.Statics DB) (d : DB),
    BaseDatabaseService.constructor driver s = Returned s' d ->
    BaseDatabaseService.dbInstance s' = Some d /\
    BaseDatabaseService.constructor driver' s' = Returned s' d.
Proof.
  intros DB driver driver' s s' d Hnew.
  unfold BaseDatabaseService.constructor in Hnew.
  assert (Hset : BaseDatabaseService.dbInstance s' = Some d).
  { destruct (BaseDatabaseService.dbInstance s) as [d0 |] eqn:Hs.
    - inversion Hnew; subst. exact Hs.
    - destruct (BaseDatabaseService.new_Database driver "mydb.sqlite") as [d0 | e];
        [| discriminate].
      destruct (BaseDatabaseService.run_pragma driver d0 BaseDatabaseService.PRAGMA)
        as [d1 | e]; [| discriminate].
      inversion Hnew; subst. reflexivity. }
  split; [exact Hset |].
  unfold BaseDatabaseService.constructor. rewrite Hset. reflexivity.
Qed.

(** The first construction of a process, then a second one under a driver
    that could not open the file. *)
Lemma constructor_reuses_the_handle_witness :
  exists s',
    BaseDatabaseService.constructor Drivers.working Drivers.fresh_process =
      Returned s' true /\
    BaseDatabaseService.dbInstance s' = Some true /\
    BaseDatabaseService.constructor Drivers.unopenable s' = Returned s' true.
Proof.
  eexists. split; [reflexivity |].
  apply (constructor_reuses_the_handle bool Drivers.working Drivers.unopenable
           Drivers.fresh_process _ true).
  reflexivity.
Defined.

(** X2: when no handle exists yet and the file cannot be opened, the
    constructor prints the error, throws it again and leaves the static
    field null, so that the next construction tries to open the file
    again. *)
Theorem constructor_open_failure :
  forall (DB : Type) (driver : BaseDatabaseService.Driver DB)
         (s : BaseDatabaseService.Statics DB) (error : string),
    BaseDatabaseService.dbInstance s = None ->
    BaseDatabaseService.new_Database driver "mydb.sqlite" = inr error ->
    exists s',
      BaseDatabaseService.constructor driver s = Thrown s' (SqliteError error) /\
      BaseDatabaseService.dbInstance s' = None /\
      BaseDatabaseService.lines s' =
        BaseDatabaseService.lines s ++ [BaseDatabaseService.InitializationFailed error] /\
      forall (driver' : BaseDatabaseService.Driver DB) (d d' : DB),
        BaseDatabaseService.new_Database driver' "mydb.sqlite" = inl d ->
        BaseDatabaseService.run_pragma driver' d BaseDatabaseService.PRAGMA = inl d' ->
        exists s'', BaseDatabaseService.constructor driver' s' = Returned s'' d' /\
                    BaseDatabaseService.dbInstance s'' = Some d'.
Proof.
  intros DB driver s error Hnull Hopen.
  unfold BaseDatabaseService.constructor. rewrite Hnull, Hopen.
  eexists. split; [reflexivity |]. split; [reflexivity |]. split; [reflexivity |].
  intros driver' d d' Hopen' Hpragma'. simpl. rewrite Hopen', Hpragma'.
  eexists. split; reflexivity.
Qed.

(** The file is missing at first and can be opened afterwards. *)
Lemma constructor_open_failure_witness :
  exists s',
    BaseDatabaseService.constructor Drivers.unopenable Drivers.fresh_process =
      Thrown s' (SqliteError "unable to open database file") /\
    BaseDatabaseService.dbInstance s' = None /\
    exists s'', BaseDatabaseService.constructor Drivers.working s' = Returned s'' true.
Proof.
  destruct (constructor_open_failure bool Drivers.unopenable Drivers.fresh_process
              "unable to open database file" eq_refl eq_refl)
    as [s' [Hthrown [Hnull [_ Hretry]]]].
  exists s'. split; [exact Hthrown |]. split; [exact Hnull |].
  destruct (Hretry Drivers.working false true eq_refl eq_refl) as [s'' [Hagain _]].
  exists s''. exact Hagain.
Defined.



(* ===================================================================== *)
(** * Reading and writing sessions *)
(* ===================================================================== *)

Section SessionStore.
Import Sqlite SqliteFacts.

Lemma getCookie_run {DB : Type} {database : Database DB} (w : World DB) (id : string) :
  AuthService.getCookie id w =
  match get_cookie (db w) id with
  | Some row =>
      Returned (after w (db w) [LogGet (SelectCookieById id)])
               (DataSuccess "Found cookie successfully" row)
  | None =>
      Returned (after w (db w) [LogGet (SelectCookieById id);
                                LogError "Failed cookie finding - userID:"])
               (DataFailure "Failed to find cookie")
  end.
Proof.
  unfold AuthService.getCookie, prepare_get_cookie, bind, log, ret, after,
    console_error, log. simpl.
  destruct (get_cookie (db w) id); simpl; [reflexivity |].
  rewrite <- app_assoc. reflexivity.
Qed.

Lemma get_cookie_absent (t : Tables) (id : string) :
  ~ In id (map cookie.id (cookie_table t)) -> sqlite_get_cookie t id = None.
Proof.
  intros Hnotin. apply find_existsb_false. now apply existsb_has_id_false.
Qed.

Lemma get_cookie_some (t : Tables) (id : string) (c : cookie.t) :
  sqlite_get_cookie t id = Some c -> In c (cookie_table t) /\ cookie.id c = id.
Proof.
  intros Hget. apply find_some in Hget. destruct Hget as [Hin Hid].
  split; [exact Hin | now apply String.eqb_eq].
Qed.

Lemma get_cookie_present (t : Tables) (id : string) :
  In id (map cookie.id (cookie_table t)) -> exists c, sqlite_get_cookie t id = Some c.
Proof.
  intros Hin. apply find_existsb_true.
  destruct (existsb (has_id id) (cookie_table t)) eqn:Hex; [reflexivity |].
  now apply existsb_has_id_false in Hex.
Qed.

Lemma insert_cookie_fresh (t : Tables) (c : cookie.t) :
  ~ In (cookie.id c) (map cookie.id (cookie_table t)) ->
  (exists row, In row (users t) /\ UserRecord.id (record row) = cookie.userID c) ->
  sqlite_run t (InsertCookie (cookie.id c) (cookie.userID c) (cookie.expireTime c)) =
  Ran (with_session t c) 1.
Proof.
  intros Hnotin Hstored. apply existsb_has_id_false in Hnotin.
  apply existsb_has_user_id_true in Hstored. simpl. rewrite Hnotin, Hstored.
  destruct c; reflexivity.
Qed.

(** The insert either stores the row, under a new id and for a stored
    user, or fails. *)
Lemma insert_cookie_cases (t : Tables) (id : string) (userID x : Z) :
  (~ In id (map cookie.id (cookie_table t)) /\
   (exists row, In row (users t) /\ UserRecord.id (record row) = userID) /\
   sqlite_run t (InsertCookie id userID x) =
     Ran (with_session t {| cookie.id := id; cookie.userID := userID;
                            cookie.expireTime := x |}) 1) \/
  (exists msg,
     (In id (map cookie.id (cookie_table t)) \/
      ~ (exists row, In row (users t) /\ UserRecord.id (record row) = userID)) /\
     sqlite_run t (InsertCookie id userID x) = Failed msg).
Proof.
  simpl. destruct (existsb (has_id id) (cookie_table t)) eqn:Hid.
  - right. eexists. split; [| reflexivity]. left.
    destruct (in_dec string_dec id (map cookie.id (cookie_table t))) as [Hin | Hnotin];
      [exact Hin |].
    apply existsb_has_id_false in Hnotin. congruence.
  - apply existsb_has_id_false in Hid.
    destruct (existsb (has_user_id userID) (users t)) eqn:Huser.
    + left. apply existsb_has_user_id_true in Huser. auto.
    + right. eexists. split; [| reflexivity]. right. intros Hstored.
      apply existsb_has_user_id_true in Hstored. congruence.
Qed.

Lemma insert_cookie_taken (t : Tables) (id : string) (userID x : Z) :
  In id (map cookie.id (cookie_table t)) ->
  sqlite_run t (InsertCookie id userID x) = Failed "UNIQUE constraint failed: cookie.id".
Proof.
  intros Hin. simpl.
  destruct (existsb (has_id id) (cookie_table t)) eqn:Hex; [reflexivity |].
  now apply existsb_has_id_false in Hex.
Qed.

Lemma get_cookie_with_session (t : Tables) (c : cookie.t) :
  ~ In (cookie.id c) (map cookie.id (cookie_table t)) ->
  sqlite_get_cookie (with_session t c) (cookie.id c) = Some c.
Proof.
  intros Hnotin. unfold sqlite_get_cookie. simpl.
  apply find_app_fresh; [now apply existsb_has_id_false |].
  unfold has_id. apply String.eqb_refl.
Qed.

Lemma get_cookie_with_session_kept (t : Tables) (c c' : cookie.t) (j : string) :
  sqlite_get_cookie t j = Some c' -> sqlite_get_cookie (with_session t c) j = Some c'.
Proof.
  unfold sqlite_get_cookie. simpl.
  induction (cookie_table t) as [| a cs IH]; simpl; [discriminate |].
  destruct (has_id j a); auto.
Qed.

Lemma filter_absent_id (id : string) (cs : list cookie.t) :
  ~ In id (map cookie.id cs) -> filter (fun c => negb (has_id id c)) cs = cs.
Proof.
  induction cs as [| a cs IH]; simpl; intros Hnotin; [reflexivity |].
  unfold has_id at 1.
  destruct (String.eqb_spec (cookie.id a) id) as [Heq | Hne]; simpl.
  - exfalso. apply Hnotin. now left.
  - f_equal. apply IH. intros Hin. apply Hnotin. now right.
Qed.

Lemma update_absent_id (x : Z) (id : string) (cs : list cookie.t) :
  ~ In id (map cookie.id cs) ->
  map (fun c => if has_id id c then set_expireTime x c else c) cs = cs.
Proof.
  induction cs as [| a cs IH]; simpl; intros Hnotin; [reflexivity |].
  unfold has_id at 1.
  destruct (String.eqb_spec (cookie.id a) id) as [Heq | Hne].
  - exfalso. apply Hnotin. now left.
  - f_equal. apply IH. intros Hin. apply Hnotin. now right.
Qed.

Lemma map_userID_update (x : Z) (id : string) (cs : list cookie.t) :
  map cookie.userID (map (fun c => if has_id id c then set_expireTime x c else c) cs) =
  map cookie.userID cs.
Proof.
  rewrite map_map. apply map_ext. intros c. destruct (has_id id c); reflexivity.
Qed.
End SessionStore.

(** X4: [getCookie] finds a session exactly when a row with that id is
    stored, and then returns a stored row with that id; for an id that is
    not stored it returns 'Failed to find cookie' after one
    [console.error].  It never changes the tables or the cookies of the
    response. *)
Theorem getCookie_finds_stored_ids :
  forall (w : World Sqlite.Tables) (id : string),
    exists w' r,
      AuthService.getCookie id w = Returned w' r /\
      db w' = db w /\ jar w' = jar w /\
      (data_success r = true <-> In id (map cookie.id (Sqlite.cookie_table (db w)))) /\
      (forall msg c, r = DataSuccess msg c ->
                     cookie.id c = id /\ In c (Sqlite.cookie_table (db w))) /\
      (~ In id (map cookie.id (Sqlite.cookie_table (db w))) ->
       r = DataFailure "Failed to find cookie" /\
       console w' = console w ++ [LogGet (SelectCookieById id);
                                  LogError "Failed cookie finding - userID:"]).
Proof.
  intros w id. rewrite getCookie_run. cbn [get_cookie Sqlite.sqlite].
  destruct (Sqlite.sqlite_get_cookie (db w) id) as [c |] eqn:Hget.
  - destruct (get_cookie_some _ _ _ Hget) as [Hin Hid].
    assert (Hstored : In id (map cookie.id (Sqlite.cookie_table (db w)))).
    { rewrite <- Hid. now apply in_map. }
    eexists. eexists. split; [reflexivity |]. split; [reflexivity |].
    split; [reflexivity |]. split; [simpl; tauto |]. split.
    + intros msg c' Heq. inversion Heq; subst. auto.
    + intros Hnotin. contradiction.
  - eexists. eexists. split; [reflexivity |]. split; [reflexivity |].
    split; [reflexivity |]. split; [| split].
    + simpl. split; [discriminate |]. intros Hin.
      destruct (get_cookie_present _ _ Hin) as [c Hc]. congruence.
    + intros msg c Heq. discriminate.
    + intros _. split; reflexivity.
Qed.

(** X5: a session created for a stored user under an id that is not yet
    stored is what [getCookie] returns for that id afterwards: the same id,
    the user it was created for and the expiry [clock w + 1 hour]; the read
    leaves the tables as the write left them. *)
Theorem createCookie_then_getCookie :
  forall (w : World Sqlite.Tables) (cookieID : string) (userID : Z),
    ~ In cookieID (map cookie.id (Sqlite.cookie_table (db w))) ->
    (exists row, In row (Sqlite.users (db w)) /\
                 UserRecord.id (Sqlite.record row) = userID) ->
    exists w1 w2,
      AuthService.createCookie cookieID userID w =
        Returned w1 {| success := true; message := "Successful cookie creation" |} /\
      AuthService.getCookie cookieID w1 =
        Returned w2 (DataSuccess "Found cookie successfully"
                       {| cookie.id := cookieID; cookie.userID := userID;
                          cookie.expireTime := clock w + AuthService.CREATE_TTL |}) /\
      db w2 = db w1.
Proof.
  intros w cookieID userID Hfresh Hstored.
  pose proof (insert_cookie_fresh (db w)
                {| cookie.id := cookieID; cookie.userID := userID;
                   cookie.expireTime := clock w + 60 * 60 * 1000 |} Hfresh Hstored) as Hrun.
  pose proof (get_cookie_with_session (db w)
                {| cookie.id := cookieID; cookie.userID := userID;
                   cookie.expireTime := clock w + 60 * 60 * 1000 |} Hfresh) as Hget.
  cbn [cookie.id cookie.userID cookie.expireTime] in Hrun, Hget.
  rewrite (createCookie_ran (database := Sqlite.sqlite) w cookieID userID _ 1 Hrun).
  eexists. eexists. split; [reflexivity |].
  rewrite getCookie_run. cbn [get_cookie Sqlite.sqlite db after].
  rewrite Hget. split; reflexivity.
Qed.

(** A first session for the README's default user. *)
Lemma createCookie_then_getCookie_witness :
  let w := Scenario.world [Scenario.default_user] [] in
  exists w1 w2,
    AuthService.createCookie "QWERTYUIOPASDFGHJKLZ" 1 w =
      Returned w1 {| success := true; message := "Successful cookie creation" |} /\
    AuthService.getCookie "QWERTYUIOPASDFGHJKLZ" w1 =
      Returned w2 (DataSuccess "Found cookie successfully"
                     {| cookie.id := "QWERTYUIOPASDFGHJKLZ"; cookie.userID := 1;
                        cookie.expireTime := clock w + AuthService.CREATE_TTL |}) /\
    db w2 = db w1.
Proof.
  apply (createCookie_then_getCookie
           (Scenario.world [Scenario.default_user] []) "QWERTYUIOPASDFGHJKLZ" 1).
  - simpl. intros [].
  - exists Scenario.default_user. split; [simpl; now left | reflexivity].
Defined.

(** X6: creating a session under an id that is already stored throws the
    constraint error of the insert and leaves the tables as they were: the
    stored session keeps its owner and its expiry. *)
Theorem createCookie_taken_id_throws :
  forall (w : World Sqlite.Tables) (cookieID : string) (userID : Z),
    In cookieID (map cookie.id (Sqlite.cookie_table (db w))) ->
    exists w',
      AuthService.createCookie cookieID userID w =
        Thrown w' (SqliteError "UNIQUE constraint failed: cookie.id") /\
      db w' = db w /\ jar w' = jar w.
Proof.
  intros w cookieID userID Htaken.
  rewrite (createCookie_failed w cookieID userID "UNIQUE constraint failed: cookie.id")
    by (apply (insert_cookie_taken (db w) cookieID userID _ Htaken)).
  eexists. split; [reflexivity |]. split; reflexivity.
Qed.

(** A second user is handed the id of a stored session. *)
Lemma createCookie_taken_id_throws_witness :
  let c := {| cookie.id := "QWERTYUIOPASDFGHJKLZ"; cookie.userID := 1;
              cookie.expireTime := 1700000000000 + 3600000 |} in
  let w := Scenario.world [Scenario.default_user] [c] in
  exists w',
    AuthService.createCookie "QWERTYUIOPASDFGHJKLZ" 2 w =
      Thrown w' (SqliteError "UNIQUE constraint failed: cookie.id") /\
    db w' = db w /\ jar w' = jar w.
Proof.
  apply (createCookie_taken_id_throws
           (Scenario.world [Scenario.default_user]
              [{| cookie.id := "QWERTYUIOPASDFGHJKLZ"; cookie.userID := 1;
                  cookie.expireTime := 1700000000000 + 3600000 |}])
           "QWERTYUIOPASDFGHJKLZ" 2).
  simpl. left. reflexivity.
Defined.

Section SessionWrites.
Import Sqlite SqliteFacts.

(** The tables after [Update cookie SET expireTime = x WHERE id = i]. *)
Lemma updateCookie_sqlite (w : World Tables) (id : string) :
  AuthService.updateCookie id w =
  Returned
    (after w
       {| users := users (db w);
          cookie_table :=
            map (fun c => if has_id id c then set_expireTime (clock w + 1000 * 30 * 60) c else c)
                (cookie_table (db w)) |}
       (write_lines (UpdateCookie (clock w + 1000 * 30 * 60) id)
                    (count (has_id id) (cookie_table (db w)))
                    "Failed cookie updating - cookieID:"))
    (write_response (count (has_id id) (cookie_table (db w)))
                    "Updated cookie successfully" "Failed to update cookie").
Proof. apply updateCookie_ran. reflexivity. Qed.

Lemma removeCookie_sqlite (w : World Tables) (id : string) :
  AuthService.removeCookie id w =
  Returned
    (after w
       {| users := users (db w);
          cookie_table := filter (fun c => negb (has_id id c)) (cookie_table (db w)) |}
       (write_lines (DeleteCookie id) (count (has_id id) (cookie_table (db w)))
                    "Failed to remove cookie - userID:"))
    (write_response (count (has_id id) (cookie_table (db w)))
                    "Successful cookie deletion" "Failed cookie deletion").
Proof. apply removeCookie_ran. reflexivity. Qed.

Lemma deleted_id_absent (id : string) (cs : list cookie.t) :
  ~ In id (map cookie.id (filter (fun c => negb (has_id id c)) cs)).
Proof.
  intros Hin. apply in_map_iff in Hin. destruct Hin as [c [Hid Hc]].
  apply filter_In in Hc. destruct Hc as [_ Hneg].
  unfold has_id in Hneg. rewrite Hid, String.eqb_refl in Hneg. discriminate.
Qed.

Lemma unique_ids_with_session (t : Tables) (c : cookie.t) :
  unique_ids t ->
  ~ In (cookie.id c) (map cookie.id (cookie_table t)) ->
  unique_ids (with_session t c).
Proof.
  unfold unique_ids, with_session. simpl. intros Hnd Hfresh.
  rewrite map_app. simpl.
  apply NoDup_app; [exact Hnd | repeat constructor; intros [] |].
  intros y Hy [<- | []]. contradiction.
Qed.

Lemma updateCookie_stored (w : World Tables) (c : cookie.t) :
  unique_ids (db w) -> In c (cookie_table (db w)) ->
  exists w',
    AuthService.updateCookie (cookie.id c) w =
      Returned w' {| success := true; message := "Updated cookie successfully" |} /\
    sqlite_get_cookie (db w') (cookie.id c) =
      Some (set_expireTime (clock w + 1000 * 30 * 60) c).
Proof.
  intros Hnd Hin. rewrite updateCookie_sqlite.
  rewrite (count_has_id_unique _ _ Hnd Hin).
  eexists. split; [reflexivity |].
  simpl. unfold sqlite_get_cookie. simpl.
  rewrite find_update, (find_has_id_unique _ _ Hnd Hin). simpl.
  unfold has_id. now rewrite String.eqb_refl.
Qed.
End SessionWrites.

(** C8, as the specification states it, fails for session create: when the
    insert affects no row (the id is already stored, or the user id is
    that of no stored user), [createCookie] throws the error of the
    database instead of returning a failure response. *)
Lemma createCookie_throws_on_failed_insert :
  let c := {| cookie.id := "QWERTYUIOPASDFGHJKLZ"; cookie.userID := 1;
              cookie.expireTime := 1700000000000 + 3600000 |} in
  let w := Scenario.world [Scenario.default_user] [c] in
  (exists w',
     AuthService.createCookie "QWERTYUIOPASDFGHJKLZ" 1 w =
       Thrown w' (SqliteError "UNIQUE constraint failed: cookie.id") /\
     db w' = db w) /\
  (exists w',
     AuthService.createCookie "MNBVCXZLKJHGFDSAPOIU" 2 w =
       Thrown w' (SqliteError "FOREIGN KEY constraint failed") /\
     db w' = db w).
Proof.
  split; eexists; split; reflexivity.
Qed.

(** C8, amended: session refresh and session delete always return; the
    response has [success = true] exactly when the statement affected one
    row, and for any other count it is the failure with the operation's
    diagnostic message.  Session create returns success when its insert
    completes, which affects exactly one row, and throws the error of the
    database, storing nothing, when the insert fails (the id is already
    stored, or the user id is that of no stored user): it returns no
    failure response.  Each call runs its statement once. *)
Theorem session_writes_report_or_throw :
  forall w : World Sqlite.Tables,
    (forall cookieID,
       exists w' r n,
         AuthService.updateCookie cookieID w = Returned w' r /\
         run (db w) (UpdateCookie (clock w + AuthService.REFRESH_TTL) cookieID) =
           Ran (db w') n /\
         (success r = true <-> n = 1) /\
         (n <> 1 -> r = {| success := false; message := "Failed to update cookie" |}) /\
         runs (console w') =
           runs (console w) ++ [UpdateCookie (clock w + AuthService.REFRESH_TTL) cookieID])
    /\
    (forall id,
       exists w' r n,
         AuthService.removeCookie id w = Returned w' r /\
         run (db w) (DeleteCookie id) = Ran (db w') n /\
         (success r = true <-> n = 1) /\
         (n <> 1 -> r = {| success := false; message := "Failed cookie deletion" |}) /\
         runs (console w') = runs (console w) ++ [DeleteCookie id])
    /\
    (forall cookieID userID,
       (~ In cookieID (map cookie.id (Sqlite.cookie_table (db w))) ->
        (exists row, In row (Sqlite.users (db w)) /\
                     UserRecord.id (Sqlite.record row) = userID) ->
        exists w',
          AuthService.createCookie cookieID userID w =
            Returned w' {| success := true; message := "Successful cookie creation" |} /\
          run (db w) (InsertCookie cookieID userID (clock w + AuthService.CREATE_TTL)) =
            Ran (db w') 1 /\
          runs (console w') =
            runs (console w) ++
            [InsertCookie cookieID userID (clock w + AuthService.CREATE_TTL)])
       /\
       (In cookieID (map cookie.id (Sqlite.cookie_table (db w))) \/
        ~ (exists row, In row (Sqlite.users (db w)) /\
                       UserRecord.id (Sqlite.record row) = userID) ->
        exists w' msg,
          AuthService.createCookie cookieID userID w = Thrown w' (SqliteError msg) /\
          db w' = db w /\
          runs (console w') =
            runs (console w) ++
            [InsertCookie cookieID userID (clock w + AuthService.CREATE_TTL)])
       /\
       (forall w' r,
          AuthService.createCookie cookieID userID w = Returned w' r ->
          success r = true)).
Proof.
  intros w. split; [| split].
  - intros cookieID. rewrite updateCookie_sqlite.
    eexists. eexists. eexists. split; [reflexivity |]. split; [reflexivity |].
    split; [apply write_response_success |].
    split; [apply write_response_failure |].
    simpl. now rewrite runs_app, runs_write_lines.
  - intros id. rewrite removeCookie_sqlite.
    eexists. eexists. eexists. split; [reflexivity |]. split; [reflexivity |].
    split; [apply write_response_success |].
    split; [apply write_response_failure |].
    simpl. now rewrite runs_app, runs_write_lines.
  - intros cookieID userID.
    destruct (insert_cookie_cases (db w) cookieID userID (clock w + 60 * 60 * 1000))
      as [[Hfresh [Hstored Hran]] | [msg [Hbad Hfailed]]].
    + split; [| split].
      * intros _ _.
        rewrite (createCookie_ran (database := Sqlite.sqlite) w cookieID userID _ 1 Hran).
        eexists. split; [reflexivity |]. split; [exact Hran |].
        simpl. now rewrite runs_app.
      * intros [Htaken | Hnone]; contradiction.
      * intros w' r Hcall.
        rewrite (createCookie_ran (database := Sqlite.sqlite) w cookieID userID _ 1 Hran)
          in Hcall.
        inversion Hcall; subst. reflexivity.
    + split; [| split].
      * intros Hfresh Hstored. destruct Hbad as [Htaken | Hnone]; contradiction.
      * intros _.
        rewrite (createCookie_failed (database := Sqlite.sqlite) w cookieID userID msg Hfailed).
        eexists. eexists. split; [reflexivity |]. split; [reflexivity |].
        simpl. now rewrite runs_app.
      * intros w' r Hcall.
        rewrite (createCookie_failed (database := Sqlite.sqlite) w cookieID userID msg Hfailed)
          in Hcall.
        discriminate.
Qed.

(** A store with one session: a refresh and a delete under another id, a
    create under the stored id and a create under a new id. *)
Lemma session_writes_report_or_throw_witness :
  let c := {| cookie.id := "QWERTYUIOPASDFGHJKLZ"; cookie.userID := 1;
              cookie.expireTime := 1700000000000 + 3600000 |} in
  let w := Scenario.world [Scenario.default_user] [c] in
  (exists w' msg,
     AuthService.createCookie "QWERTYUIOPASDFGHJKLZ" 1 w = Thrown w' (SqliteError msg) /\
     db w' = db w) /\
  (exists w',
     AuthService.createCookie "MNBVCXZLKJHGFDSAPOIU" 1 w =
       Returned w' {| success := true; message := "Successful cookie creation" |}) /\
  (exists w' r n,
     AuthService.removeCookie "ZZZZZZZZZZZZZZZZZZZZ" w = Returned w' r /\
     run (db w) (DeleteCookie "ZZZZZZZZZZZZZZZZZZZZ") = Ran (db w') n /\
     (n <> 1 -> r = {| success := false; message := "Failed cookie deletion" |})).
Proof.
  pose proof (session_writes_report_or_throw
                (Scenario.world [Scenario.default_user]
                   [{| cookie.id := "QWERTYUIOPASDFGHJKLZ"; cookie.userID := 1;
                       cookie.expireTime := 1700000000000 + 3600000 |}]))
    as [_ [Hdelete Hcreate]].
  split; [| split].
  - destruct (proj1 (proj2 (Hcreate "QWERTYUIOPASDFGHJKLZ" 1)))
      as [w' [msg [Hcall [Hdb _]]]].
    + left. simpl. now left.
    + exists w', msg. split; [exact Hcall | exact Hdb].
  - destruct (proj1 (Hcreate "MNBVCXZLKJHGFDSAPOIU" 1)) as [w' [Hcall _]].
    + simpl. intros [Heq | []]. discriminate Heq.
    + exists Scenario.default_user. split; [simpl; now left | reflexivity].
    + exists w'. exact Hcall.
  - destruct (Hdelete "ZZZZZZZZZZZZZZZZZZZZ") as [w' [r [n [Hcall [Hrun [_ [Hfail _]]]]]]].
    exists w', r, n. split; [exact Hcall |]. split; [exact Hrun | exact Hfail].
Defined.

(** X7: deleting a stored session returns success; afterwards [getCookie]
    for its id returns 'Failed to find cookie', a second [removeCookie] of
    the id returns 'Failed cookie deletion', and every other session reads
    as before.  The users are untouched. *)
Theorem removeCookie_then_getCookie :
  forall (w : World Sqlite.Tables) (c : cookie.t),
    Sqlite.unique_ids (db w) ->
    In c (Sqlite.cookie_table (db w)) ->
    exists w1 w2 w3,
      AuthService.removeCookie (cookie.id c) w =
        Returned w1 {| success := true; message := "Successful cookie deletion" |} /\
      AuthService.getCookie (cookie.id c) w1 =
        Returned w2 (DataFailure "Failed to find cookie") /\
      AuthService.removeCookie (cookie.id c) w2 =
        Returned w3 {| success := false; message := "Failed cookie deletion" |} /\
      Sqlite.users (db w1) = Sqlite.users (db w) /\
      (forall j, j <> cookie.id c -> get_cookie (db w1) j = get_cookie (db w) j).
Proof.
  intros w c Hnd Hin.
  rewrite removeCookie_sqlite, (SqliteFacts.count_has_id_unique _ _ Hnd Hin).
  eexists. eexists. eexists. split; [reflexivity |].
  rewrite getCookie_run. cbn [get_cookie Sqlite.sqlite db after].
  unfold Sqlite.sqlite_get_cookie at 1. cbn [Sqlite.cookie_table].
  rewrite SqliteFacts.find_delete_same. split; [reflexivity |].
  rewrite removeCookie_sqlite. cbn [db after Sqlite.cookie_table].
  rewrite (SqliteFacts.count_has_id_fresh _ _ (deleted_id_absent (cookie.id c) _)).
  split; [reflexivity |]. split; [reflexivity |].
  intros j Hj. simpl. unfold Sqlite.sqlite_get_cookie. simpl.
  apply SqliteFacts.find_delete_other. congruence.
Qed.

(** Two stored sessions, the first of which is deleted. *)
Lemma removeCookie_then_getCookie_witness :
  let c1 := {| cookie.id := "QWERTYUIOPASDFGHJKLZ"; cookie.userID := 1;
               cookie.expireTime := 1700000000000 + 3600000 |} in
  let c2 := {| cookie.id := "MNBVCXZLKJHGFDSAPOIU"; cookie.userID := 1;
               cookie.expireTime := 1700000000000 + 1800000 |} in
  let w := Scenario.world [Scenario.default_user] [c1; c2] in
  exists w1 w2 w3,
    AuthService.removeCookie "QWERTYUIOPASDFGHJKLZ" w =
      Returned w1 {| success := true; message := "Successful cookie deletion" |} /\
    AuthService.getCookie "QWERTYUIOPASDFGHJKLZ" w1 =
      Returned w2 (DataFailure "Failed to find cookie") /\
    AuthService.removeCookie "QWERTYUIOPASDFGHJKLZ" w2 =
      Returned w3 {| success := false; message := "Failed cookie deletion" |} /\
    Sqlite.users (db w1) = Sqlite.users (db w) /\
    (forall j, j <> "QWERTYUIOPASDFGHJKLZ" -> get_cookie (db w1) j = get_cookie (db w) j).
Proof.
  apply (removeCookie_then_getCookie
           (Scenario.world [Scenario.default_user]
              [{| cookie.id := "QWERTYUIOPASDFGHJKLZ"; cookie.userID := 1;
                  cookie.expireTime := 1700000000000 + 3600000 |};
               {| cookie.id := "MNBVCXZLKJHGFDSAPOIU"; cookie.userID := 1;
                  cookie.expireTime := 1700000000000 + 1800000 |}])
           {| cookie.id := "QWERTYUIOPASDFGHJKLZ"; cookie.userID := 1;
              cookie.expireTime := 1700000000000 + 3600000 |}).
  - unfold Sqlite.unique_ids. simpl.
    constructor; [simpl; intuition discriminate |].
    constructor; [intros [] | constructor].
  - simpl. left. reflexivity.
Defined.

(** X8: under an id that is not stored, [updateCookie] and [removeCookie]
    return their failure responses ('Failed to update cookie', 'Failed
    cookie deletion') and leave both tables exactly as they were. *)
Theorem session_writes_under_unknown_id :
  forall (w : World Sqlite.Tables) (id : string),
    ~ In id (map cookie.id (Sqlite.cookie_table (db w))) ->
    (exists w',
       AuthService.updateCookie id w =
         Returned w' {| success := false; message := "Failed to update cookie" |} /\
       db w' = db w) /\
    (exists w',
       AuthService.removeCookie id w =
         Returned w' {| success := false; message := "Failed cookie deletion" |} /\
       db w' = db w).
Proof.
  intros w id Hnotin. split.
  - rewrite updateCookie_sqlite, (SqliteFacts.count_has_id_fresh _ _ Hnotin).
    eexists. split; [reflexivity |]. simpl.
    rewrite (update_absent_id _ _ _ Hnotin). destruct (db w); reflexivity.
  - rewrite removeCookie_sqlite, (SqliteFacts.count_has_id_fresh _ _ Hnotin).
    eexists. split; [reflexivity |]. simpl.
    rewrite (filter_absent_id _ _ Hnotin). destruct (db w); reflexivity.
Qed.

(** A store with one session, written to under another id. *)
Lemma session_writes_under_unknown_id_witness :
  let c := {| cookie.id := "QWERTYUIOPASDFGHJKLZ"; cookie.userID := 1;
              cookie.expireTime := 1700000000000 + 3600000 |} in
  let w := Scenario.world [Scenario.default_user] [c] in
  (exists w',
     AuthService.updateCookie "ZZZZZZZZZZZZZZZZZZZZ" w =
       Returned w' {| success := false; message := "Failed to update cookie" |} /\
     db w' = db w) /\
  (exists w',
     AuthService.removeCookie "ZZZZZZZZZZZZZZZZZZZZ" w =
       Returned w' {| success := false; message := "Failed cookie deletion" |} /\
     db w' = db w).
Proof.
  apply (session_writes_under_unknown_id
           (Scenario.world [Scenario.default_user]
              [{| cookie.id := "QWERTYUIOPASDFGHJKLZ"; cookie.userID := 1;
                  cookie.expireTime := 1700000000000 + 3600000 |}])
           "ZZZZZZZZZZZZZZZZZZZZ").
  simpl. intros [Heq | []]. discriminate Heq.
Defined.

(** X9: whatever id it is given, [updateCookie] returns, and it changes
    nothing but the expiry of the sessions under that id: the users, the
    ids of the sessions and their owners are as before, and every session
    under another id reads as before. *)
Theorem updateCookie_changes_only_the_expiry :
  forall (w : World Sqlite.Tables) (id : string),
    exists w' r,
      AuthService.updateCookie id w = Returned w' r /\
      Sqlite.users (db w') = Sqlite.users (db w) /\
      map cookie.id (Sqlite.cookie_table (db w')) =
        map cookie.id (Sqlite.cookie_table (db w)) /\
      map cookie.userID (Sqlite.cookie_table (db w')) =
        map cookie.userID (Sqlite.cookie_table (db w)) /\
      (forall j, j <> id -> get_cookie (db w') j = get_cookie (db w) j).
Proof.
  intros w id. rewrite updateCookie_sqlite.
  eexists. eexists. split; [reflexivity |]. split; [reflexivity |].
  simpl. split; [apply SqliteFacts.map_id_update |].
  split; [apply map_userID_update |].
  intros j Hj. unfold Sqlite.sqlite_get_cookie. simpl.
  rewrite SqliteFacts.find_update.
  destruct (find (Sqlite.has_id j) (Sqlite.cookie_table (db w))) as [c |] eqn:Hfind;
    [| reflexivity].
  simpl. apply find_some in Hfind. destruct Hfind as [_ Hid].
  unfold Sqlite.has_id in *. apply String.eqb_eq in Hid.
  destruct (String.eqb_spec (cookie.id c) id) as [Heq | Hne]; [congruence | reflexivity].
Qed.

(** X10: a session created for a stored user at time [clock w] and
    refreshed at time [t] ends with the expiry [t + 30 minutes], whatever it
    was: a refresh less than 30 minutes after the creation moves the expiry
    to an earlier time, a refresh more than 30 minutes after it to a later
    one. *)
Theorem refresh_after_creation :
  forall (w : World Sqlite.Tables) (cookieID : string) (userID t : Z),
    Sqlite.unique_ids (db w) ->
    ~ In cookieID (map cookie.id (Sqlite.cookie_table (db w))) ->
    (exists row, In row (Sqlite.users (db w)) /\
                 UserRecord.id (Sqlite.record row) = userID) ->
    exists w1 w2 c1 c2,
      AuthService.createCookie cookieID userID w =
        Returned w1 {| success := true; message := "Successful cookie creation" |} /\
      AuthService.updateCookie cookieID (incoming w1 t) =
        Returned w2 {| success := true; message := "Updated cookie successfully" |} /\
      get_cookie (db w1) cookieID = Some c1 /\
      get_cookie (db w2) cookieID = Some c2 /\
      cookie.userID c2 = userID /\
      cookie.expireTime c2 = t + AuthService.REFRESH_TTL /\
      (t < clock w + 30 * 60 * 1000 -> cookie.expireTime c2 < cookie.expireTime c1) /\
      (clock w + 30 * 60 * 1000 < t -> cookie.expireTime c1 < cookie.expireTime c2).
Proof.
  intros w cookieID userID t Hnd Hfresh Hstored.
  pose proof (insert_cookie_fresh (db w)
                {| cookie.id := cookieID; cookie.userID := userID;
                   cookie.expireTime := clock w + 60 * 60 * 1000 |} Hfresh Hstored) as Hrun.
  pose proof (get_cookie_with_session (db w)
                {| cookie.id := cookieID; cookie.userID := userID;
                   cookie.expireTime := clock w + 60 * 60 * 1000 |} Hfresh) as Hget.
  pose proof (unique_ids_with_session (db w)
                {| cookie.id := cookieID; cookie.userID := userID;
                   cookie.expireTime := clock w + 60 * 60 * 1000 |} Hnd Hfresh) as Hnd1.
  cbn [cookie.id cookie.userID cookie.expireTime] in Hrun, Hget.
  rewrite (createCookie_ran (database := Sqlite.sqlite) w cookieID userID _ 1 Hrun).
  cbn [write_response write_lines Z.eqb Pos.eqb].
  apply get_cookie_some in Hget as Hin. destruct Hin as [Hin _].
  destruct (updateCookie_stored
              (incoming (after w (with_session (db w)
                 {| cookie.id := cookieID; cookie.userID := userID;
                    cookie.expireTime := clock w + 60 * 60 * 1000 |})
                 [LogRun (InsertCookie cookieID userID (clock w + 60 * 60 * 1000))]) t)
              {| cookie.id := cookieID; cookie.userID := userID;
                 cookie.expireTime := clock w + 60 * 60 * 1000 |} Hnd1 Hin)
    as [w2 [Hupdate Hget2]].
  cbn [cookie.id] in Hupdate, Hget2.
  eexists. exists w2. eexists. eexists.
  split; [reflexivity |]. split; [exact Hupdate |].
  split; [exact Hget |]. split; [exact Hget2 |].
  unfold AuthService.REFRESH_TTL. simpl. repeat split; lia.
Qed.

(** A session of the README's default user, refreshed ten minutes after
    its creation. *)
Lemma refresh_after_creation_witness :
  let w := Scenario.world [Scenario.default_user] [] in
  exists w1 w2 c1 c2,
    AuthService.createCookie "QWERTYUIOPASDFGHJKLZ" 1 w =
      Returned w1 {| success := true; message := "Successful cookie creation" |} /\
    AuthService.updateCookie "QWERTYUIOPASDFGHJKLZ" (incoming w1 1700000600000) =
      Returned w2 {| success := true; message := "Updated cookie successfully" |} /\
    get_cookie (db w1) "QWERTYUIOPASDFGHJKLZ" = Some c1 /\
    get_cookie (db w2) "QWERTYUIOPASDFGHJKLZ" = Some c2 /\
    cookie.expireTime c2 < cookie.expireTime c1.
Proof.
  destruct (refresh_after_creation
              (Scenario.world [Scenario.default_user] [])
              "QWERTYUIOPASDFGHJKLZ" 1 1700000600000)
    as [w1 [w2 [c1 [c2 [Hc [Hu [Hg1 [Hg2 [_ [_ [Hearlier _]]]]]]]]]]].
  - unfold Sqlite.unique_ids. simpl. constructor.
  - simpl. intros [].
  - exists Scenario.default_user. split; [simpl; now left | reflexivity].
  - exists w1, w2, c1, c2.
    split; [exact Hc |]. split; [exact Hu |]. split; [exact Hg1 |].
    split; [exact Hg2 |]. apply Hearlier. simpl. lia.
Defined.

(* ===================================================================== *)
(** * The actions on the store *)
(* ===================================================================== *)

Section ActionsOnTheStore.
Import Sqlite SqliteFacts.
Context {argon2 : Argon2}.

(** The four ways the login action ends under the documented schema. *)
Lemma login_sqlite (w : World Tables) (ev : RequestEvent) :
  actions.login ev w =
  match sqlite_get_user (db w) (login_email ev) with
  | Some u =>
      if argon2_verify (UserRecord.hashedPassword u) (form_password (formData ev)) then
        if existsb (has_id (actions.cookieID_of ev)) (cookie_table (db w)) then
          Thrown (after (looked_up w ev) (db w)
                    [LogRun (InsertCookie (actions.cookieID_of ev) (UserRecord.id u)
                                          (clock w + 60 * 60 * 1000))])
                 (SqliteError "UNIQUE constraint failed: cookie.id")
        else
          Thrown (with_cookie
                    (after (looked_up w ev) (with_session (db w) (session_of w ev u))
                       [LogRun (InsertCookie (actions.cookieID_of ev) (UserRecord.id u)
                                             (clock w + 60 * 60 * 1000))])
                    (session_cookie ev))
                 (Redirect 302 "/home")
      else Returned (looked_up w ev) (ActionFailure 422 GENERIC_FAILURE)
  | None => Returned (looked_up w ev) (ActionFailure 422 GENERIC_FAILURE)
  end.
Proof.
  destruct (sqlite_get_user (db w) (login_email ev)) as [u |] eqn:Hget.
  - destruct (argon2_verify (UserRecord.hashedPassword u) (form_password (formData ev)))
      eqn:Hver.
    + destruct (existsb (has_id (actions.cookieID_of ev)) (cookie_table (db w))) eqn:Hex.
      * apply (login_valid_thrown (database := sqlite) w _ ev u _ Hget Hver).
        rewrite (createCookie_failed (database := sqlite) (looked_up w ev) _ _
                   "UNIQUE constraint failed: cookie.id"); [reflexivity |].
        simpl. rewrite Hex. reflexivity.
      * rewrite (login_valid_returned (database := sqlite) w
                   (after (looked_up w ev) (with_session (db w) (session_of w ev u))
                      [LogRun (InsertCookie (actions.cookieID_of ev) (UserRecord.id u)
                                            (clock w + 60 * 60 * 1000))])
                   ev u {| success := true; message := "Successful cookie creation" |}
                   Hget Hver); [reflexivity |].
        rewrite (createCookie_ran (database := sqlite) (looked_up w ev) _ _
                   (with_session (db w) (session_of w ev u)) 1); [reflexivity |].
        simpl. rewrite Hex, (found_user_has_id (db w) _ u Hget). reflexivity.
    + apply (login_wrong_password (database := sqlite) w ev u Hget Hver).
  - apply (login_unknown_email (database := sqlite) w ev Hget).
Qed.

Lemma get_user_some (t : Tables) (e : string) (u : UserRecord.t) :
  sqlite_get_user t e = Some u ->
  exists r, In r (users t) /\ record r = u /\ row_email r = e.
Proof.
  unfold sqlite_get_user. intros Hget.
  destruct (find (has_email e) (users t)) as [r |] eqn:Hfind; [| discriminate].
  apply find_has_email_some in Hfind. destruct Hfind as [Hin He].
  exists r. simpl in Hget. inversion Hget. auto.
Qed.

Lemma get_user_with_user (t : Tables) (user : BaseUserRecord.t) :
  (forall r, In r (users t) -> row_email r <> BaseUserRecord.email user) ->
  sqlite_get_user (with_user t user) (BaseUserRecord.email user) =
  Some {| UserRecord.id := next_id (users t);
          UserRecord.firstName := BaseUserRecord.firstName user;
          UserRecord.lastName := BaseUserRecord.lastName user;
          UserRecord.email := BaseUserRecord.email user;
          UserRecord.hashedPassword := BaseUserRecord.hashedPassword user |}.
Proof.
  intros Hfresh. apply existsb_has_email_false in Hfresh.
  unfold sqlite_get_user, with_user. simpl.
  rewrite (find_app_fresh _ _ _ Hfresh); [reflexivity |].
  unfold has_email, row_email. simpl. apply String.eqb_refl.
Qed.

Lemma get_user_with_session (t : Tables) (c : cookie.t) (e : string) :
  sqlite_get_user (with_session t c) e = sqlite_get_user t e.
Proof. reflexivity. Qed.

(** The tables after the login action, however it ends. *)
Lemma login_tables (w : World Tables) (ev : RequestEvent) :
  db (world_of (actions.login ev w)) = db w \/
  exists u, sqlite_get_user (db w) (login_email ev) = Some u /\
            ~ In (actions.cookieID_of ev) (map cookie.id (cookie_table (db w))) /\
            db (world_of (actions.login ev w)) = with_session (db w) (session_of w ev u).
Proof.
  rewrite login_sqlite.
  destruct (sqlite_get_user (db w) (login_email ev)) as [u |]; [| now left].
  destruct (argon2_verify _ _); [| now left].
  destruct (existsb _ _) eqn:Hex; [now left |].
  right. exists u. split; [reflexivity |]. split; [| reflexivity].
  now apply existsb_has_id_false.
Qed.

(** The tables after the signup action. *)
Lemma signup_tables (w : World Tables) (ev : RequestEvent) :
  db (world_of (actions.signup ev w)) = db w \/
  ((forall r, In r (users (db w)) -> row_email r <> toLowerCase (form_email (formData ev))) /\
   db (world_of (actions.signup ev w)) = with_user (db w) (newUserData_of ev)).
Proof.
  rewrite signup_sqlite.
  destruct (existsb _ _) eqn:Hex; [now left |].
  right. split; [| reflexivity]. now apply existsb_has_email_false.
Qed.
End ActionsOnTheStore.




(** X11: however a login ends (failure, redirect or a thrown error), the
    users table is as before and every session that was stored is still
    stored, unchanged; the login adds at most one session. *)
Theorem login_keeps_users_and_sessions :
  forall (argon2 : Argon2) (w : World Sqlite.Tables) (ev : RequestEvent),
    Sqlite.users (db (world_of (actions.login ev w))) = Sqlite.users (db w) /\
    (forall j c, get_cookie (db w) j = Some c ->
                 get_cookie (db (world_of (actions.login ev w))) j = Some c) /\
    (length (Sqlite.cookie_table (db (world_of (actions.login ev w)))) <=
     S (length (Sqlite.cookie_table (db w))))%nat.
Proof.
  intros argon2 w ev.
  destruct (login_tables w ev) as [Hsame | [u [_ [_ Hadded]]]].
  - rewrite Hsame. split; [reflexivity |]. split; [auto | lia].
  - rewrite Hadded. split; [reflexivity |]. split.
    + intros j c Hget. now apply get_cookie_with_session_kept.
    + simpl. rewrite length_app. simpl. lia.
Qed.

(** X12: a signup followed by a login with the same email in any casing and
    the same password ends in the redirect, with a cookie for a session of
    the user the signup stored; given that the email was not yet stored,
    that the hash of a password verifies against it, and that the drawn
    token is not yet a session id. *)
Theorem signup_then_login :
  forall (argon2 : Argon2) (w : World Sqlite.Tables) (ev ev' : RequestEvent) (t : Z),
    (forall r, In r (Sqlite.users (db w)) ->
               Sqlite.row_email r <> toLowerCase (form_email (formData ev))) ->
    toLowerCase (form_email (formData ev')) = toLowerCase (form_email (formData ev)) ->
    form_password (formData ev') = form_password (formData ev) ->
    argon2_verify (argon2_hash (salt ev) (form_password (formData ev)) 2)
                  (form_password (formData ev)) = true ->
    ~ In (actions.cookieID_of ev') (map cookie.id (Sqlite.cookie_table (db w))) ->
    exists w1 w2,
      actions.signup ev w = Returned w1 Void /\
      actions.login ev' (incoming w1 t) = Thrown w2 (Redirect 302 "/home") /\
      jar w2 = [{| name := "sessionID"; value := actions.cookieID_of ev'; path := "/" |}] /\
      get_cookie (db w2) (actions.cookieID_of ev') =
        Some {| cookie.id := actions.cookieID_of ev';
                cookie.userID := Sqlite.next_id (Sqlite.users (db w));
                cookie.expireTime := t + AuthService.CREATE_TTL |} /\
      exists u, get_user (db w2) (toLowerCase (form_email (formData ev))) = Some u /\
                UserRecord.id u = Sqlite.next_id (Sqlite.users (db w)).
Proof.
  intros argon2 w ev ev' t Hfresh Hcase Hpw Hver Htoken.
  pose proof Hfresh as Hex. apply SqliteFacts.existsb_has_email_false in Hex.
  rewrite signup_sqlite, Hex.
  eexists. eexists. split; [reflexivity |].
  rewrite login_sqlite. unfold login_email. rewrite Hcase.
  cbn [db incoming after].
  rewrite (get_user_with_user (db w) (newUserData_of ev) Hfresh).
  cbn [UserRecord.hashedPassword newUserData_of BaseUserRecord.hashedPassword].
  rewrite Hpw, Hver.
  apply SqliteFacts.existsb_has_id_false in Htoken as Hid.
  cbn [Sqlite.cookie_table with_user]. rewrite Hid.
  split; [reflexivity |]. split; [reflexivity |]. split.
  - cbn [db with_cookie after get_cookie Sqlite.sqlite].
    exact (get_cookie_with_session (with_user (db w) (newUserData_of ev))
             {| cookie.id := actions.cookieID_of ev';
                cookie.userID := Sqlite.next_id (Sqlite.users (db w));
                cookie.expireTime := t + AuthService.CREATE_TTL |} Htoken).
  - cbn [db with_cookie after get_user Sqlite.sqlite].
    change (toLowerCase (form_email (formData ev)))
      with (BaseUserRecord.email (newUserData_of ev)).
    rewrite get_user_with_session, (get_user_with_user (db w) (newUserData_of ev) Hfresh).
    eexists. split; reflexivity.
Qed.

(** The README's credentials: signup, then login with the email typed in
    capitals one minute later. *)
Lemma signup_then_login_witness :
  let w := Scenario.world [] [] in
  let ev := Scenario.request "1234@gmail.com" "1234" (fun _ => O) in
  let ev' := Scenario.request "1234@GMAIL.COM" "1234" (fun i => (3 * i + 1)%nat) in
  exists w1 w2,
    actions.signup (argon2 := Scenario.plain_argon2) ev w = Returned w1 Void /\
    actions.login (argon2 := Scenario.plain_argon2) ev' (incoming w1 1700000060000) =
      Thrown w2 (Redirect 302 "/home") /\
    jar w2 = [{| name := "sessionID"; value := actions.cookieID_of ev'; path := "/" |}] /\
    get_cookie (db w2) (actions.cookieID_of ev') =
      Some {| cookie.id := actions.cookieID_of ev'; cookie.userID := 1;
              cookie.expireTime := 1700000060000 + 3600000 |}.
Proof.
  destruct (signup_then_login Scenario.plain_argon2 (Scenario.world [] [])
              (Scenario.request "1234@gmail.com" "1234" (fun _ => O))
              (Scenario.request "1234@GMAIL.COM" "1234" (fun i => (3 * i + 1)%nat))
              1700000060000)
    as [w1 [w2 [Hs [Hl [Hjar [Hget _]]]]]].
  - intros r [].
  - reflexivity.
  - reflexivity.
  - reflexivity.
  - simpl. intros [].
  - exists w1, w2. split; [exact Hs |]. split; [exact Hl |].
    split; [exact Hjar | exact Hget].
Defined.

(* ===================================================================== *)
(** * What every call keeps *)
(* ===================================================================== *)

Section Invariants.
Import Sqlite SqliteFacts.
Context {argon2 : Argon2}.

Lemma unique_emails_with_user (t : Tables) (user : BaseUserRecord.t) :
  unique_emails t ->
  (forall r, In r (users t) -> row_email r <> BaseUserRecord.email user) ->
  unique_emails (with_user t user).
Proof.
  intros Hnd Hfresh. apply existsb_has_email_false in Hfresh.
  apply (run_unique_emails t _ (insert_of user) 1 Hnd).
  simpl. rewrite Hfresh. reflexivity.
Qed.

Lemma lower_case_with_user (t : Tables) (user : BaseUserRecord.t) :
  lower_case_emails t ->
  toLowerCase (BaseUserRecord.email user) = BaseUserRecord.email user ->
  lower_case_emails (with_user t user).
Proof.
  unfold lower_case_emails, with_user. simpl. intros Hall Hlow.
  apply Forall_app. split; [exact Hall |].
  constructor; [exact Hlow | constructor].
Qed.

Lemma lower_case_distinct (t : Tables) :
  unique_emails t -> lower_case_emails t ->
  NoDup (map (fun r => toLowerCase (row_email r)) (users t)).
Proof.
  unfold unique_emails, lower_case_emails. intros Hnd Hall.
  rewrite (map_ext_in _ row_email); [exact Hnd |].
  intros r Hr. rewrite Forall_forall in Hall. now apply Hall.
Qed.

Lemma sessions_owned_with_user (t : Tables) (user : BaseUserRecord.t) :
  sessions_owned t -> sessions_owned (with_user t user).
Proof.
  unfold sessions_owned, with_user. simpl. intros Hown c Hc.
  destruct (Hown c Hc) as [r [Hr Hid]].
  exists r. split; [apply in_or_app; now left | exact Hid].
Qed.

Lemma sessions_owned_with_session (t : Tables) (c : cookie.t) :
  sessions_owned t ->
  (exists r, In r (users t) /\ UserRecord.id (record r) = cookie.userID c) ->
  sessions_owned (with_session t c).
Proof.
  unfold sessions_owned, with_session. simpl. intros Hown Hc c' Hin.
  apply in_app_or in Hin. destruct Hin as [Hin | [<- | []]]; auto.
Qed.

Lemma consistent_signup (w : World Tables) (ev : RequestEvent) :
  consistent (db w) -> consistent (db (world_of (actions.signup ev w))).
Proof.
  intros [Hemails [Hids [Hlow Hown]]].
  destruct (signup_tables w ev) as [-> | [Hfresh ->]].
  - repeat split; assumption.
  - split; [now apply unique_emails_with_user |].
    split; [exact Hids |].
    split; [| now apply sessions_owned_with_user].
    apply lower_case_with_user; [exact Hlow |]. apply toLowerCase_idempotent.
Qed.

Lemma consistent_login (w : World Tables) (ev : RequestEvent) :
  consistent (db w) -> consistent (db (world_of (actions.login ev w))).
Proof.
  intros [Hemails [Hids [Hlow Hown]]].
  destruct (login_tables w ev) as [-> | [u [Hget [Hfresh ->]]]].
  - repeat split; assumption.
  - split; [exact Hemails |].
    split; [now apply unique_ids_with_session |].
    split; [exact Hlow |].
    apply sessions_owned_with_session; [exact Hown |].
    destruct (get_user_some _ _ _ Hget) as [r [Hr [Hrec _]]].
    exists r. split; [exact Hr |]. now rewrite Hrec.
Qed.

Lemma consistent_updateCookie (w : World Tables) (id : string) :
  consistent (db w) -> consistent (db (world_of (AuthService.updateCookie id w))).
Proof.
  intros [Hemails [Hids [Hlow Hown]]]. rewrite updateCookie_sqlite. simpl.
  split; [exact Hemails |].
  split; [unfold unique_ids; simpl; now rewrite map_id_update |].
  split; [exact Hlow |].
  intros c Hc. simpl in Hc. apply in_map_iff in Hc. destruct Hc as [c0 [Hc0 Hin]].
  destruct (Hown c0 Hin) as [r [Hr Hid]]. exists r. split; [exact Hr |].
  rewrite Hid, <- Hc0. destruct (has_id id c0); reflexivity.
Qed.

Lemma consistent_removeCookie (w : World Tables) (id : string) :
  consistent (db w) -> consistent (db (world_of (AuthService.removeCookie id w))).
Proof.
  intros [Hemails [Hids [Hlow Hown]]]. rewrite removeCookie_sqlite. simpl.
  split; [exact Hemails |].
  split; [unfold unique_ids; simpl; now apply unique_ids_filter |].
  split; [exact Hlow |].
  intros c Hc. simpl in Hc. apply filter_In in Hc. now apply Hown.
Qed.

Lemma consistent_getCookie (w : World Tables) (id : string) :
  consistent (db w) -> consistent (db (world_of (AuthService.getCookie id w))).
Proof.
  intros Hcons. rewrite getCookie_run.
  destruct (get_cookie (db w) id); exact Hcons.
Qed.

Lemma consistent_serve (w : World Tables) (tc : Z * Call) :
  consistent (db w) -> consistent (db (serve w tc)).
Proof.
  intros Hcons. unfold serve. destruct (snd tc) as [ev | ev | id | id | id].
  - now apply consistent_signup.
  - now apply consistent_login.
  - now apply consistent_getCookie.
  - now apply consistent_updateCookie.
  - now apply consistent_removeCookie.
Qed.
End Invariants.

(** X13: in a store whose emails are pairwise distinct and in lower case,
    a signup, however it ends, leaves them pairwise distinct and in lower
    case: no two stored users have emails that are equal up to letter
    casing. *)
Theorem signup_keeps_emails_distinct_up_to_case :
  forall (argon2 : Argon2) (w : World Sqlite.Tables) (ev : RequestEvent),
    Sqlite.unique_emails (db w) ->
    lower_case_emails (db w) ->
    Sqlite.unique_emails (db (world_of (actions.signup ev w))) /\
    lower_case_emails (db (world_of (actions.signup ev w))) /\
    NoDup (map (fun r => toLowerCase (Sqlite.row_email r))
               (Sqlite.users (db (world_of (actions.signup ev w))))).
Proof.
  intros argon2 w ev Hemails Hlow.
  assert (Hboth : Sqlite.unique_emails (db (world_of (actions.signup ev w))) /\
                  lower_case_emails (db (world_of (actions.signup ev w)))).
  { destruct (signup_tables w ev) as [-> | [Hfresh ->]].
    - split; assumption.
    - split; [now apply unique_emails_with_user |].
      apply lower_case_with_user; [exact Hlow |]. apply toLowerCase_idempotent. }
  destruct Hboth as [H1 H2]. split; [exact H1 |]. split; [exact H2 |].
  now apply lower_case_distinct.
Qed.

(** A second signup under the email of a stored user, in capitals. *)
Lemma signup_keeps_emails_distinct_up_to_case_witness :
  let w := Scenario.world [Scenario.default_user] [] in
  let ev := Scenario.request "1234@GMAIL.COM" "abcd" (fun _ => O) in
  NoDup (map (fun r => toLowerCase (Sqlite.row_email r))
             (Sqlite.users (db (world_of
                (actions.signup (argon2 := Scenario.plain_argon2) ev w))))).
Proof.
  refine (proj2 (proj2 (signup_keeps_emails_distinct_up_to_case
            Scenario.plain_argon2 (Scenario.world [Scenario.default_user] [])
            (Scenario.request "1234@GMAIL.COM" "abcd" (fun _ => O)) _ _))).
  - unfold Sqlite.unique_emails. simpl. constructor; [intros [] | constructor].
  - unfold lower_case_emails. simpl. constructor; [reflexivity | constructor].
Defined.

(** X14: from a store in which the emails are pairwise distinct and in
    lower case, the session ids are pairwise distinct and every session
    belongs to a stored user, any sequence of signup, login, [getCookie],
    [updateCookie] and [removeCookie] calls, made at any times and ending
    in any way, leads to a store with these four properties: in
    particular no call leaves a session without its user. *)
Theorem calls_keep_the_store_consistent :
  forall (argon2 : Argon2) (calls : list (Z * Call)) (w : World Sqlite.Tables),
    consistent (db w) ->
    consistent (db (fold_left serve calls w)).
Proof.
  intros argon2 calls. induction calls as [| tc calls IH]; intros w Hcons; simpl.
  - exact Hcons.
  - apply IH. now apply consistent_serve.
Qed.

(** An empty store; a signup, a login, a refresh, a second signup in
    another casing, a logout and a lookup. *)
Lemma calls_keep_the_store_consistent_witness :
  let ev := Scenario.request "1234@gmail.com" "1234" (fun i => (5 * i + 2)%nat) in
  let ev' := Scenario.request "1234@Gmail.com" "1234" (fun i => (5 * i + 2)%nat) in
  consistent
    (db (fold_left (serve (argon2 := Scenario.plain_argon2))
           [(1700000000000, CallSignup ev);
            (1700000001000, CallLogin ev');
            (1700000002000, CallUpdateCookie (actions.cookieID_of ev'));
            (1700000003000, CallSignup ev');
            (1700000004000, CallRemoveCookie (actions.cookieID_of ev'));
            (1700000005000, CallGetCookie (actions.cookieID_of ev'))]
           (Scenario.world [] []))).
Proof.
  apply (calls_keep_the_store_consistent Scenario.plain_argon2).
  unfold consistent, Sqlite.unique_emails, Sqlite.unique_ids, lower_case_emails,
    sessions_owned.
  simpl. repeat split; try constructor. intros c [].
Defined.

(* ===================================================================== *)
(** * Reading users *)
(* ===================================================================== *)

Section UserStore.
Import Sqlite SqliteFacts.

Lemma find_has_email_miss (e : string) (us : list UserRow) (row : UserRow) :
  has_email e row = false ->
  find (has_email e) (us ++ [row]) = find (has_email e) us.
Proof.
  intros Hmiss. induction us as [| a us IH]; simpl.
  - now rewrite Hmiss.
  - destruct (has_email e a); [reflexivity | exact IH].
Qed.

Lemma get_user_with_user_other (t : Tables) (user : BaseUserRecord.t) (e : string) :
  e <> BaseUserRecord.email user ->
  sqlite_get_user (with_user t user) e = sqlite_get_user t e.
Proof.
  intros Hne. unfold sqlite_get_user, with_user. simpl. f_equal.
  apply find_has_email_miss. unfold has_email, row_email. simpl.
  destruct (String.eqb_spec (BaseUserRecord.email user) e); [congruence | reflexivity].
Qed.
End UserStore.

(** X15: [getUserByEmail] returns a user exactly when a row with exactly
    that email is stored, and the user it returns is a stored one with that
    email; otherwise it returns "Couldn't find user".  It never changes the
    tables or the cookies of the response. *)
Theorem getUserByEmail_finds_stored_emails :
  forall (w : World Sqlite.Tables) (e : string),
    exists w' r,
      AuthService.getUserByEmail e w = Returned w' r /\
      db w' = db w /\ jar w' = jar w /\
      (data_success r = true <->
       exists row, In row (Sqlite.users (db w)) /\ Sqlite.row_email row = e) /\
      (forall msg u, r = DataSuccess msg u ->
                     UserRecord.email u = e /\
                     exists row, In row (Sqlite.users (db w)) /\ Sqlite.record row = u) /\
      (data_success r = false -> r = DataFailure "Couldn't find user").
Proof.
  intros w e. rewrite getUserByEmail_run. cbn [get_user Sqlite.sqlite].
  destruct (Sqlite.sqlite_get_user (db w) e) as [u |] eqn:Hget.
  - destruct (get_user_some _ _ _ Hget) as [row [Hin [Hrec Hemail]]].
    eexists. eexists. split; [reflexivity |]. split; [reflexivity |].
    split; [reflexivity |]. split; [| split].
    + simpl. split; [intros _; exists row; auto | reflexivity].
    + intros msg u' Heq. inversion Heq; subst. split.
      * reflexivity.
      * exists row. auto.
    + simpl. discriminate.
  - eexists. eexists. split; [reflexivity |]. split; [reflexivity |].
    split; [reflexivity |]. split; [| split].
    + simpl. split; [discriminate |]. intros [row [Hin Hemail]].
      unfold Sqlite.sqlite_get_user in Hget.
      destruct (find (Sqlite.has_email e) (Sqlite.users (db w))) as [r |] eqn:Hfind;
        [discriminate |].
      assert (Hex : existsb (Sqlite.has_email e) (Sqlite.users (db w)) = true).
      { apply SqliteFacts.existsb_has_email_true. exists row. auto. }
      destruct (find_existsb_true _ _ Hex) as [x Hx]. congruence.
    + intros msg u Heq. discriminate.
    + reflexivity.
Qed.

(** X16: a user created under an email that is not yet stored is what
    [getUserByEmail] returns for that email afterwards, with the fields of
    the record as given (the email is stored as it was passed) and the next
    free id; lookups under every other email read as before. *)
Theorem createUser_then_getUserByEmail :
  forall (w : World Sqlite.Tables) (user : BaseUserRecord.t),
    (forall r, In r (Sqlite.users (db w)) ->
               Sqlite.row_email r <> BaseUserRecord.email user) ->
    exists w1 w2,
      AuthService.createUser user w =
        Returned w1 {| success := true; message := "User was created successfully" |} /\
      AuthService.getUserByEmail (BaseUserRecord.email user) w1 =
        Returned w2 (DataSuccess "User was retrieved successfully"
                       {| UserRecord.id := Sqlite.next_id (Sqlite.users (db w));
                          UserRecord.firstName := BaseUserRecord.firstName user;
                          UserRecord.lastName := BaseUserRecord.lastName user;
                          UserRecord.email := BaseUserRecord.email user;
                          UserRecord.hashedPassword := BaseUserRecord.hashedPassword user |}) /\
      (forall e, e <> BaseUserRecord.email user ->
                 get_user (db w1) e = get_user (db w) e) /\
      Sqlite.cookie_table (db w1) = Sqlite.cookie_table (db w).
Proof.
  intros w user Hfresh.
  pose proof Hfresh as Hex. apply SqliteFacts.existsb_has_email_false in Hex.
  rewrite createUser_sqlite, Hex.
  eexists. eexists. split; [reflexivity |].
  rewrite getUserByEmail_run. cbn [get_user Sqlite.sqlite db after].
  rewrite (get_user_with_user (db w) user Hfresh).
  split; [reflexivity |]. split; [| reflexivity].
  intros e He. now apply get_user_with_user_other.
Qed.

(** A record with a capital in its email, stored beside the README's
    default user. *)
Lemma createUser_then_getUserByEmail_witness :
  let w := Scenario.world [Scenario.default_user] [] in
  let user := {| BaseUserRecord.firstName := "Grace";
                 BaseUserRecord.lastName := "Hopper";
                 BaseUserRecord.email := "Grace@navy.mil";
                 BaseUserRecord.hashedPassword := "salt$cobol" |} in
  exists w1 w2,
    AuthService.createUser user w =
      Returned w1 {| success := true; message := "User was created successfully" |} /\
    AuthService.getUserByEmail "Grace@navy.mil" w1 =
      Returned w2 (DataSuccess "User was retrieved successfully"
                     {| UserRecord.id := 2;
                        UserRecord.firstName := "Grace";
                        UserRecord.lastName := "Hopper";
                        UserRecord.email := "Grace@navy.mil";
                        UserRecord.hashedPassword := "salt$cobol" |}).
Proof.
  destruct (createUser_then_getUserByEmail
              (Scenario.world [Scenario.default_user] [])
              {| BaseUserRecord.firstName := "Grace";
                 BaseUserRecord.lastName := "Hopper";
                 BaseUserRecord.email := "Grace@navy.mil";
                 BaseUserRecord.hashedPassword := "salt$cobol" |})
    as [w1 [w2 [Hcreate [Hget _]]]].
  - simpl. intros r [<- | []]. discriminate.
  - exists w1, w2. split; [exact Hcreate | exact Hget].
Defined.
